(** * A telephony / real-time AI audio bridge: the relay of [index.js]

    The program accepts one telephony media-stream WebSocket per call, opens
    a second WebSocket to the AI service, and relays audio between the two.
    All of its behaviour lives in the event handlers registered inside the
    [/media-stream] route.  This development embeds those handlers as
    functions on an explicit session state and proves the relay's properties.

    Layout:
    - JavaScript values as far as the handlers inspect them;
    - the UTF-16 code units of a string, which Node's base64 reader sees;
    - Node's base64 codec ([Buffer.from(s, 'base64').toString('base64')]);
    - the [ws] socket operations the handlers call ([send], [close]);
    - the session state and a small state-and-exception monad;
    - the handlers, one definition per callback of the source;
    - the event loop delivering socket and timer events to the handlers;
    - the theorems. *)

From Stdlib Require Import String Ascii List Bool NArith ZArith QArith Lia DecimalString.
Import ListNotations.
Close Scope Q_scope.
Open Scope string_scope.

(** ** JavaScript values *)

(** What [JSON.parse] can produce, plus [undefined], which a property access
    on a missing key yields.  Objects keep their keys in an association
    list (the first binding of a key counts); numbers are the finite ones. *)
#[warnings="-register-all"]
Inductive value : Type :=
| Undefined
| Null
| Bool (b : bool)
| Num (q : Q)
| Str (s : string)
| Arr (items : list value)
| Obj (fields : list (string * value)).

Inductive exn : Type :=
| SyntaxError
| TypeError
| NotOpenError.

Inductive result (A : Type) : Type :=
| Ok (a : A)
| Throw (e : exn).
Arguments Ok {A} a.
Arguments Throw {A} e.

Fixpoint lookup (k : string) (fields : list (string * value)) : value :=
  match fields with
  | [] => Undefined
  | (k', v) :: rest => if String.eqb k k' then v else lookup k rest
  end.

(** [v.k] for the property names the handlers use ([event], [media],
    [payload], [start], [streamSid], [type], [delta]): a [TypeError] on
    [undefined] and [null], the stored value on an object, [undefined] on
    anything else. *)
Definition get_prop (v : value) (k : string) : result value :=
  match v with
  | Undefined | Null => Throw TypeError
  | Obj fields => Ok (lookup k fields)
  | _ => Ok Undefined
  end.

(** JavaScript truthiness, as tested by [&& response.delta]. *)
Definition truthy (v : value) : bool :=
  match v with
  | Undefined | Null => false
  | Bool b => b
  | Num q => negb (Z.eqb (Qnum q) 0)
  | Str s => negb (String.eqb s "")
  | Arr _ | Obj _ => true
  end.

(** [v === 'lit'] *)
Definition strict_eq_str (v : value) (lit : string) : bool :=
  match v with
  | Str s => String.eqb s lit
  | _ => false
  end.

(** [list.includes(v)] on a list of string literals. *)
Definition includes (list : list string) (v : value) : bool :=
  existsb (strict_eq_str v) list.

(** ** JavaScript strings as Node reads them

    A [Str] holds its text in UTF-8, one [ascii] per byte, while
    JavaScript sees the same text as UTF-16 code units.  Node's base64
    reader goes through the code units and looks at the low byte of each;
    [units] gives the code units of a byte string. *)

Module Utf16.

Local Open Scope N_scope.

(** U+FFFD, which stands for a byte that starts no character. *)
Definition replacement : N := 65533.

Definition continuation (b : N) : bool := (128 <=? b) && (b <? 192).

(** The code point of a two-byte sequence, if it is one. *)
Definition two_bytes (b0 b1 : N) : option N :=
  if (194 <=? b0) && (b0 <? 224) && continuation b1
  then Some ((b0 - 192) * 64 + (b1 - 128))
  else None.

(** The code point of a three-byte sequence, if it is one; a surrogate
    written this way is read as the lone code unit it is. *)
Definition three_bytes (b0 b1 b2 : N) : option N :=
  let cp := (b0 - 224) * 4096 + (b1 - 128) * 64 + (b2 - 128) in
  if (224 <=? b0) && (b0 <? 240) && continuation b1 && continuation b2 && (2048 <=? cp)
  then Some cp
  else None.

(** The code point of a four-byte sequence, if it is one. *)
Definition four_bytes (b0 b1 b2 b3 : N) : option N :=
  let cp := (b0 - 240) * 262144 + (b1 - 128) * 4096 + (b2 - 128) * 64 + (b3 - 128) in
  if (240 <=? b0) && (b0 <? 245) && continuation b1 && continuation b2 &&
     continuation b3 && (65536 <=? cp) && (cp <? 1114112)
  then Some cp
  else None.

(** A code point above U+FFFF takes two code units. *)
Definition surrogates (cp : N) : list N :=
  [55296 + (cp - 65536) / 1024; 56320 + (cp - 65536) mod 1024].

Fixpoint units (bs : list N) : list N :=
  match bs with
  | [] => []
  | b0 :: rest =>
      if b0 <? 128 then b0 :: units rest
      else
        match rest with
        | [] => [replacement]
        | b1 :: rest1 =>
            match two_bytes b0 b1 with
            | Some cp => cp :: units rest1
            | None =>
                match rest1 with
                | [] => replacement :: units rest
                | b2 :: rest2 =>
                    match three_bytes b0 b1 b2 with
                    | Some cp => cp :: units rest2
                    | None =>
                        match rest2 with
                        | [] => replacement :: units rest
                        | b3 :: rest3 =>
                            match four_bytes b0 b1 b2 b3 with
                            | Some cp => (surrogates cp ++ units rest3)%list
                            | None => replacement :: units rest
                            end
                        end
                    end
                end
            end
        end
  end.

(** The code units of a string. *)
Definition of_string (s : string) : list N :=
  units (map N_of_ascii (list_ascii_of_string s)).

End Utf16.

(** ** Base64, as Node's [Buffer] does it *)

Module Base64.

Local Open Scope N_scope.

(** The value of a character of the standard alphabet. *)
Definition std_value (c : ascii) : option N :=
  let n := N_of_ascii c in
  if (65 <=? n) && (n <=? 90) then Some (n - 65)
  else if (97 <=? n) && (n <=? 122) then Some (n - 71)
  else if (48 <=? n) && (n <=? 57) then Some (n + 4)
  else if n =? 43 then Some 62
  else if n =? 47 then Some 63
  else None.

(** The decoder also takes the URL-safe [-] and [_]. *)
Definition unbase64 (c : ascii) : option N :=
  let n := N_of_ascii c in
  if n =? 45 then Some 62
  else if n =? 95 then Some 63
  else std_value c.

Definition digit (v : N) : ascii :=
  if v <? 26 then ascii_of_N (v + 65)
  else if v <? 52 then ascii_of_N (v + 71)
  else if v <? 62 then ascii_of_N (v - 4)
  else if v =? 62 then "+"%char
  else "/"%char.

Definition pad : ascii := "="%char.

(** The decoder is lenient: it skips every character outside the
    alphabet and stops at the first [=]. *)
Fixpoint sextets (cs : list ascii) : list N :=
  match cs with
  | [] => []
  | c :: cs' =>
      if Ascii.eqb c pad then []
      else match unbase64 c with
           | Some v => v :: sextets cs'
           | None => sextets cs'
           end
  end.

(** Four sextets make three bytes; a trailing pair makes one byte, a
    trailing triple two, and a single trailing sextet is lost. *)
Fixpoint bytes_of_sextets (vs : list N) : list N :=
  match vs with
  | a :: b :: c :: d :: vs' =>
      (a * 4 + b / 16) :: ((b mod 16) * 16 + c / 4) :: ((c mod 4) * 64 + d)
      :: bytes_of_sextets vs'
  | [a; b; c] => [a * 4 + b / 16; (b mod 16) * 16 + c / 4]
  | [a; b] => [a * 4 + b / 16]
  | _ => []
  end.

(** What the reader sees of a string: the low byte of each code unit. *)
Definition low_bytes (s : string) : list ascii :=
  map (fun unit => ascii_of_N (unit mod 256)) (Utf16.of_string s).

(** [Buffer.from(s, 'base64')] on a string. *)
Definition decode (s : string) : list N :=
  bytes_of_sextets (sextets (low_bytes s)).

Fixpoint encode_chars (bs : list N) : list ascii :=
  match bs with
  | x :: y :: z :: bs' =>
      digit (x / 4) :: digit ((x mod 4) * 16 + y / 16)
      :: digit ((y mod 16) * 4 + z / 64) :: digit (z mod 64)
      :: encode_chars bs'
  | [x; y] => [digit (x / 4); digit ((x mod 4) * 16 + y / 16); digit ((y mod 16) * 4); pad]
  | [x] => [digit (x / 4); digit ((x mod 4) * 16); pad; pad]
  | [] => []
  end.

(** [buf.toString('base64')]: the standard alphabet, padded. *)
Definition encode (bs : list N) : string :=
  string_of_list_ascii (encode_chars bs).

Definition is_std (c : ascii) : bool :=
  match std_value c with Some _ => true | None => false end.

Definition low_bits_clear (c : ascii) (m : N) : bool :=
  match std_value c with
  | Some v => v mod m =? 0
  | None => false
  end.

(** The last group of a canonical text: four digits, or three digits and
    one pad with the two unused bits clear, or two digits and two pads
    with the four unused bits clear. *)
Definition canonical_last (c1 c2 c3 c4 : ascii) : bool :=
  is_std c1 && is_std c2 &&
  (if Ascii.eqb c4 pad
   then if Ascii.eqb c3 pad then low_bits_clear c2 16 else low_bits_clear c3 4
   else is_std c3 && is_std c4).

(** Canonical base64 text (RFC 4648, section 4): whole groups of four
    characters of the standard alphabet, padding only in the last. *)
Fixpoint canonical_chars (cs : list ascii) : bool :=
  match cs with
  | [] => true
  | c1 :: c2 :: c3 :: c4 :: cs' =>
      match cs' with
      | [] => canonical_last c1 c2 c3 c4
      | _ => is_std c1 && is_std c2 && is_std c3 && is_std c4 && canonical_chars cs'
      end
  | _ => false
  end.

Definition canonical (s : string) : bool :=
  canonical_chars (list_ascii_of_string s).

End Base64.

(** ** The [ws] sockets

    Both sockets are [WebSocket] objects of the [ws] package.  The handlers
    read [readyState] and call [send] and [close]; what those do is the
    package's behaviour, written out here. *)

Inductive ready_state : Type := CONNECTING | OPEN | CLOSING | CLOSED.

Definition ready_state_eqb (a b : ready_state) : bool :=
  match a, b with
  | CONNECTING, CONNECTING | OPEN, OPEN | CLOSING, CLOSING | CLOSED, CLOSED => true
  | _, _ => false
  end.

(** A socket as the session sees it: its [readyState], the texts it has
    put on the wire, and how often [close()] was called on it. *)
Record websocket : Type := mkWebSocket {
  readyState : ready_state;
  sent : list string;
  closeCalls : nat
}.

(** [ws.send(text)]: raises while the socket is still connecting, puts the
    text on the wire when it is open, and is dropped once the socket is
    closing or closed. *)
Definition ws_send (text : string) (ws : websocket) : result unit * websocket :=
  match readyState ws with
  | CONNECTING => (Throw NotOpenError, ws)
  | OPEN => (Ok tt, mkWebSocket OPEN (sent ws ++ [text]) (closeCalls ws))
  | CLOSING | CLOSED => (Ok tt, ws)
  end.

(** [ws.close()]: starts the closing handshake of a socket that is not yet
    closing or closed. *)
Definition ws_close (ws : websocket) : websocket :=
  match readyState ws with
  | CONNECTING | OPEN => mkWebSocket CLOSING (sent ws) (S (closeCalls ws))
  | CLOSING | CLOSED => mkWebSocket (readyState ws) (sent ws) (S (closeCalls ws))
  end.

Definition set_readyState (r : ready_state) (ws : websocket) : websocket :=
  mkWebSocket r (sent ws) (closeCalls ws).

(** ** The session *)

Inductive log_arg : Type :=
| LStr (s : string)
| LVal (v : value)
| LErr (e : exn).

Inductive log_level : Type := LogLevel | ErrorLevel.

(** The variables a call's closure holds: [streamSid], the two sockets,
    the pending [setTimeout(sendSessionUpdate, 250)] callbacks, and what
    has been written to the console. *)
Record session : Type := mkSession {
  streamSid : value;
  openAiWs : websocket;
  connection : websocket;
  pendingTimeouts : nat;
  console : list (log_level * list log_arg)
}.

(** The closure right after the route handler has run: [streamSid = null],
    the AI socket just created, the telephony socket already accepted. *)
Definition new_session : session :=
  mkSession Null (mkWebSocket CONNECTING [] 0) (mkWebSocket OPEN [] 0) 0 [].

(** Handlers run in a monad that threads the session and may throw; what a
    handler did before it threw stays done. *)
Definition M (A : Type) : Type := session -> result A * session.

Definition ret {A} (a : A) : M A := fun s => (Ok a, s).

Definition bind {A B} (m : M A) (k : A -> M B) : M B :=
  fun s =>
    match m s with
    | (Ok a, s') => k a s'
    | (Throw e, s') => (Throw e, s')
    end.

Definition lift {A} (r : result A) : M A := fun s => (r, s).

Definition try_catch (body : M unit) (handler : exn -> M unit) : M unit :=
  fun s =>
    match body s with
    | (Ok tt, s') => (Ok tt, s')
    | (Throw e, s') => handler e s'
    end.

Definition exec {A} (m : M A) (s : session) : session := snd (m s).

Declare Scope js_scope.
Delimit Scope js_scope with js.
Notation "x <- m ;; k" := (bind m (fun x => k))
  (at level 61, m at next level, right associativity) : js_scope.
Notation "m ;; k" := (bind m (fun _ => k))
  (at level 61, right associativity) : js_scope.
Open Scope js_scope.

Definition when (b : bool) (m : M unit) : M unit := if b then m else ret tt.

Definition console_log (args : list log_arg) : M unit :=
  fun s => (Ok tt, mkSession (streamSid s) (openAiWs s) (connection s)
                             (pendingTimeouts s) (console s ++ [(LogLevel, args)])).

Definition console_error (args : list log_arg) : M unit :=
  fun s => (Ok tt, mkSession (streamSid s) (openAiWs s) (connection s)
                             (pendingTimeouts s) (console s ++ [(ErrorLevel, args)])).

Definition read_streamSid : M value := fun s => (Ok (streamSid s), s).

Definition assign_streamSid (v : value) : M unit :=
  fun s => (Ok tt, mkSession v (openAiWs s) (connection s) (pendingTimeouts s) (console s)).

Definition openAiWs_readyState : M ready_state := fun s => (Ok (readyState (openAiWs s)), s).

Definition openAiWs_send (text : string) : M unit :=
  fun s => let (r, ws) := ws_send text (openAiWs s) in
           (r, mkSession (streamSid s) ws (connection s) (pendingTimeouts s) (console s)).

Definition openAiWs_close : M unit :=
  fun s => (Ok tt, mkSession (streamSid s) (ws_close (openAiWs s)) (connection s)
                             (pendingTimeouts s) (console s)).

Definition connection_send (text : string) : M unit :=
  fun s => let (r, ws) := ws_send text (connection s) in
           (r, mkSession (streamSid s) (openAiWs s) ws (pendingTimeouts s) (console s)).

(** [setTimeout(sendSessionUpdate, 250)] *)
Definition setTimeout_sendSessionUpdate : M unit :=
  fun s => (Ok tt, mkSession (streamSid s) (openAiWs s) (connection s)
                             (S (pendingTimeouts s)) (console s)).

(** ** A concrete JSON library for the worked examples

    The handlers take [JSON.parse] and [JSON.stringify] as parameters.  The
    examples of this file run them with the two functions below:
    [stringify] prints the values the bridge handles (strings free of
    characters that need an escape, finite decimals), and [parse] reads
    back the finitely many texts listed in [texts], each the printed form
    of the value it is mapped to; it rejects any other text, as
    [JSON.parse] rejects the non-JSON texts the examples feed it. *)
Module Sample.

Definition quoted (s : string) : string :=
  String "034"%char (s ++ String "034"%char EmptyString).

Definition show_N (n : N) : string := NilZero.string_of_uint (N.to_uint n).

Fixpoint show_fraction (fuel : nat) (r d : N) : string :=
  match fuel with
  | O => ""
  | S fuel' =>
      if (r =? 0)%N then ""
      else show_N (10 * r / d) ++ show_fraction fuel' ((10 * r) mod d) d
  end.

Definition show_number (q : Q) : string :=
  let n := Z.abs_N (Qnum q) in
  let d := Npos (Qden q) in
  (if (Qnum q <? 0)%Z then "-" else "") ++
  show_N (n / d) ++
  (if (n mod d =? 0)%N then "" else "." ++ show_fraction 17 (n mod d) d).

Definition is_undefined (v : value) : bool :=
  match v with Undefined => true | _ => false end.

(** [undefined] prints as [null] inside an array and takes its key with
    it inside an object. *)
Fixpoint stringify (v : value) : string :=
  match v with
  | Undefined | Null => "null"
  | Bool true => "true"
  | Bool false => "false"
  | Num q => show_number q
  | Str s => quoted s
  | Arr items => "[" ++ String.concat "," (map stringify items) ++ "]"
  | Obj fields =>
      "{" ++ String.concat ","
               (flat_map (fun kv : string * value =>
                            let (k, v') := kv in
                            if is_undefined v' then []
                            else [quoted k ++ ":" ++ stringify v']) fields) ++ "}"
  end.

Definition start_event (sid : string) : value :=
  Obj [ ("event", Str "start"); ("start", Obj [ ("streamSid", Str sid) ]) ].

Definition media_event (payload : string) : value :=
  Obj [ ("event", Str "media"); ("media", Obj [ ("payload", Str payload) ]) ].

Definition delta_event (delta : string) : value :=
  Obj [ ("type", Str "response.audio.delta"); ("delta", Str delta) ].

Definition texts : list value :=
  [ start_event "SD123"; start_event "SD456";
    media_event "AAAA"; media_event "QUJD";
    delta_event "QUJD"; delta_event "QQ";
    Obj [ ("event", Str "mark") ];
    Obj [ ("type", Str "session.updated") ] ].

Definition parse (text : string) : option value :=
  find (fun v => String.eqb (stringify v) text) texts.

(** [Buffer.from] on an array or object; the examples never reach it. *)
Definition Buffer_from_object (v : value) : result (list N) := Throw TypeError.

End Sample.

(** ** The handlers *)

Definition SYSTEM_MESSAGE : string :=
  "Eres un asistente muy obediente, te gusta enseñarme sobre finanzas y economía. Hablás español con el acento paraguayo".

Definition VOICE : string := "alloy".

Definition LOG_EVENT_TYPES : list string :=
  [ "response.content.done";
    "rate_limits.updated";
    "response.done";
    "input_audio_buffer.committed";
    "input_audio_buffer.speech_stopped";
    "input_audio_buffer.speech_started";
    "session.created" ].

(** The object literal built by [sendSessionUpdate]. *)
Definition sessionUpdate : value :=
  Obj [ ("type", Str "session.update");
        ("session",
          Obj [ ("turn_detection", Obj [ ("type", Str "server_vad") ]);
                ("input_audio_format", Str "g711_ulaw");
                ("output_audio_format", Str "g711_ulaw");
                ("voice", Str VOICE);
                ("instructions", Str SYSTEM_MESSAGE);
                ("modalities", Arr [ Str "text"; Str "audio" ]);
                ("temperature", Num (8 # 10)%Q) ]) ].

(** The object literal built in the [response.audio.delta] branch. *)
Definition audioDelta (sid : value) (payload : string) : value :=
  Obj [ ("event", Str "media");
        ("streamSid", sid);
        ("media", Obj [ ("payload", Str payload) ]) ].

(** The object literal built in the [media] case. *)
Definition audioAppend (payload : value) : value :=
  Obj [ ("type", Str "input_audio_buffer.append");
        ("audio", payload) ].

Section Bridge.

(** The JavaScript and Node library functions the handlers call.
    [JSON_parse] gives [None] where [JSON.parse] throws a [SyntaxError];
    [Buffer_from_object] is [Buffer.from] on an array or an object (a
    byte array, an array-like, or a [TypeError]). *)
Variable JSON_parse : string -> option value.
Variable JSON_stringify : value -> string.
Variable Buffer_from_object : value -> result (list N).

Definition parse (text : string) : M value :=
  match JSON_parse text with
  | Some v => ret v
  | None => lift (Throw SyntaxError)
  end.

(** [Buffer.from(v, 'base64')] *)
Definition Buffer_from_base64 (v : value) : result (list N) :=
  match v with
  | Str s => Ok (Base64.decode s)
  | Arr _ | Obj _ => Buffer_from_object v
  | _ => Throw TypeError
  end.

Definition sendSessionUpdate : M unit :=
  console_log [ LStr "Enviando actualización de sesión:";
                LStr (JSON_stringify sessionUpdate) ] ;;
  openAiWs_send (JSON_stringify sessionUpdate).

(** [openAiWs.on('open', ...)] *)
Definition openAiWs_on_open : M unit :=
  console_log [ LStr "Conectado a la API Realtime de OpenAI" ] ;;
  setTimeout_sendSessionUpdate.

(** [openAiWs.on('message', (data) => ...)]: the [try] block, then the
    listener with its [catch]. *)
Definition openAiWs_on_message_try (data : string) : M unit :=
  response <- parse data ;;
  ty <- lift (get_prop response "type") ;;
  when (includes LOG_EVENT_TYPES ty)
       (console_log [ LStr ("Evento recibido: " ++
                            match ty with Str t => t | _ => "" end);
                      LVal response ]) ;;
  when (strict_eq_str ty "session.updated")
       (console_log [ LStr "Sesión actualizada correctamente:"; LVal response ]) ;;
  if strict_eq_str ty "response.audio.delta" then
    delta <- lift (get_prop response "delta") ;;
    if truthy delta then
      sid <- read_streamSid ;;
      buf <- lift (Buffer_from_base64 delta) ;;
      connection_send (JSON_stringify (audioDelta sid (Base64.encode buf)))
    else ret tt
  else ret tt.

Definition openAiWs_on_message (data : string) : M unit :=
  try_catch (openAiWs_on_message_try data)
    (fun error =>
       console_error [ LStr "Error al procesar el mensaje de OpenAI:"; LErr error;
                       LStr "Mensaje en bruto:"; LStr data ]).

(** [connection.on('message', (message) => ...)]: the [try] block with
    its [switch (data.event)], then the listener with its [catch]. *)
Definition connection_on_message_try (message : string) : M unit :=
  data <- parse message ;;
  event <- lift (get_prop data "event") ;;
  if strict_eq_str event "media" then
    state <- openAiWs_readyState ;;
    if ready_state_eqb state OPEN then
      media <- lift (get_prop data "media") ;;
      payload <- lift (get_prop media "payload") ;;
      openAiWs_send (JSON_stringify (audioAppend payload))
    else ret tt
  else if strict_eq_str event "start" then
    start <- lift (get_prop data "start") ;;
    sid <- lift (get_prop start "streamSid") ;;
    assign_streamSid sid ;;
    console_log [ LStr "El stream entrante ha comenzado"; LVal sid ]
  else
    console_log [ LStr "Evento no relacionado con medios recibido:"; LVal event ].

Definition connection_on_message (message : string) : M unit :=
  try_catch (connection_on_message_try message)
    (fun error =>
       console_error [ LStr "Error al analizar el mensaje:"; LErr error;
                       LStr "Mensaje:"; LStr message ]).

(** [connection.on('close', ...)] *)
Definition connection_on_close : M unit :=
  state <- openAiWs_readyState ;;
  when (ready_state_eqb state OPEN) openAiWs_close ;;
  console_log [ LStr "Cliente desconectado." ].

(** [openAiWs.on('close', ...)] *)
Definition openAiWs_on_close : M unit :=
  console_log [ LStr "Desconectado de la API Realtime de OpenAI" ].

(** [openAiWs.on('error', (error) => ...)] *)
Definition openAiWs_on_error (error : exn) : M unit :=
  console_error [ LStr "Error en el WebSocket de OpenAI:"; LErr error ].

(** ** The event loop

    What the two sockets and the timer can deliver to the session.  The
    [ws] library moves a socket's [readyState] before it calls the
    listener: to [OPEN] before ['open'], to [CLOSING] before ['error'],
    to [CLOSED] before ['close'].  It emits ['open'] once, from
    [CONNECTING]; ['message'] until the socket is closed (also while it
    is closing); nothing after ['close'].  A timer fires once. *)
Inductive event : Type :=
| AiOpen
| AiMessage (data : string)
| AiError (error : exn)
| AiClose
| Timeout
| TelMessage (message : string)
| TelClose.

Definition is_closed (ws : websocket) : bool := ready_state_eqb (readyState ws) CLOSED.

Definition set_openAiWs_state (r : ready_state) (s : session) : session :=
  mkSession (streamSid s) (set_readyState r (openAiWs s)) (connection s)
            (pendingTimeouts s) (console s).

Definition set_connection_state (r : ready_state) (s : session) : session :=
  mkSession (streamSid s) (openAiWs s) (set_readyState r (connection s))
            (pendingTimeouts s) (console s).

Definition timer_fired (s : session) : session :=
  mkSession (streamSid s) (openAiWs s) (connection s)
            (pred (pendingTimeouts s)) (console s).

(** Can the environment deliver [ev] in state [s]? *)
Definition enabled (ev : event) (s : session) : bool :=
  match ev with
  | AiOpen => ready_state_eqb (readyState (openAiWs s)) CONNECTING
  | AiMessage _ | AiError _ | AiClose => negb (is_closed (openAiWs s))
  | Timeout => negb (Nat.eqb (pendingTimeouts s) 0)
  | TelMessage _ | TelClose => negb (is_closed (connection s))
  end.

(** The listener call for an event that is delivered. *)
Definition fire (ev : event) (s : session) : session :=
  match ev with
  | AiOpen => exec openAiWs_on_open (set_openAiWs_state OPEN s)
  | AiMessage data => exec (openAiWs_on_message data) s
  | AiError error => exec (openAiWs_on_error error) (set_openAiWs_state CLOSING s)
  | AiClose => exec openAiWs_on_close (set_openAiWs_state CLOSED s)
  | Timeout => exec sendSessionUpdate (timer_fired s)
  | TelMessage message => exec (connection_on_message message) s
  | TelClose => exec connection_on_close (set_connection_state CLOSED s)
  end.

(** An event the environment cannot deliver in [s] does not happen. *)
Definition deliver (ev : event) (s : session) : session :=
  if enabled ev s then fire ev s else s.

Definition run (evs : list event) (s : session) : session :=
  fold_left (fun s' ev => deliver ev s') evs s.

(** ** Reading a message

    What the handlers make of a text, read off the parsed value the way
    the handlers read it. *)

(** A telephony text with [event === 'media'] whose [media.payload] is
    [payload] (a string, in the telephony protocol). *)
Definition media_event_with (message : string) (payload : value) : Prop :=
  exists data media,
    JSON_parse message = Some data /\
    get_prop data "event" = Ok (Str "media") /\
    get_prop data "media" = Ok media /\
    get_prop media "payload" = Ok payload.

(** A telephony text with [event === 'media'], whatever else it holds. *)
Definition media_tagged (message : string) : Prop :=
  exists data,
    JSON_parse message = Some data /\
    get_prop data "event" = Ok (Str "media").

(** A telephony text with [event === 'start']. *)
Definition start_tagged (message : string) : Prop :=
  exists data,
    JSON_parse message = Some data /\
    get_prop data "event" = Ok (Str "start").

(** A telephony text with [event === 'start'] whose [start.streamSid] is
    [sid]. *)
Definition start_event_with (message : string) (sid : value) : Prop :=
  exists data start,
    JSON_parse message = Some data /\
    get_prop data "event" = Ok (Str "start") /\
    get_prop data "start" = Ok start /\
    get_prop start "streamSid" = Ok sid.

(** An AI text with [type === 'response.audio.delta'] whose [delta] is
    the string [delta]. *)
Definition audio_delta_with (data delta : string) : Prop :=
  exists response,
    JSON_parse data = Some response /\
    get_prop response "type" = Ok (Str "response.audio.delta") /\
    get_prop response "delta" = Ok (Str delta).

(** The telephony listener run over a sequence of texts, in order. *)
Definition receive_all (messages : list string) (s : session) : session :=
  fold_left (fun s' message => exec (connection_on_message message) s') messages s.

(** [s] with [text] added to what the AI socket has put on the wire. *)
Definition ai_sent (texts : list string) (s : session) : session :=
  mkSession (streamSid s)
            (mkWebSocket (readyState (openAiWs s)) (sent (openAiWs s) ++ texts)
                         (closeCalls (openAiWs s)))
            (connection s) (pendingTimeouts s) (console s).

(** [s] with [text] added to what the telephony socket has put on the wire. *)
Definition telephony_sent (texts : list string) (s : session) : session :=
  mkSession (streamSid s) (openAiWs s)
            (mkWebSocket (readyState (connection s)) (sent (connection s) ++ texts)
                         (closeCalls (connection s)))
            (pendingTimeouts s) (console s).

(** [s] with one more console line. *)
Definition logged (line : log_level * list log_arg) (s : session) : session :=
  mkSession (streamSid s) (openAiWs s) (connection s) (pendingTimeouts s)
            (console s ++ [line]).

(** Two sessions that differ at most in what was written to the console. *)
Definition same_but_console (a b : session) : Prop :=
  streamSid a = streamSid b /\ openAiWs a = openAiWs b /\
  connection a = connection b /\ pendingTimeouts a = pendingTimeouts b.

(** The telephony socket is closed and the AI socket is closing or closed. *)
Definition torn_down (s : session) : Prop :=
  readyState (connection s) = CLOSED /\
  (readyState (openAiWs s) = CLOSING \/ readyState (openAiWs s) = CLOSED).

(** A character of the standard alphabet is the digit of its value, a
    value below 64 that the decoder reads the same way, and not the pad. *)
Definition digit_inverts (c : ascii) : bool :=
  match Base64.std_value c with
  | Some v =>
      (v <? 64)%N && Ascii.eqb (Base64.digit v) c &&
      match Base64.unbase64 c with
      | Some v' => (v =? v')%N
      | None => false
      end && negb (Ascii.eqb c Base64.pad)
  | None => true
  end.

(** A character below 128 is its own code unit. *)
Definition is_plain (c : ascii) : bool := (N_of_ascii c <? 128)%N.

(** The characters of canonical base64 are all below 128. *)
Definition alphabet_is_plain (c : ascii) : bool :=
  implb (Base64.is_std c || Ascii.eqb c Base64.pad) (is_plain c).

(** ** Proofs *)

Ltac step_handler :=
  unfold exec, connection_on_message, connection_on_message_try,
    openAiWs_on_message, openAiWs_on_message_try, connection_on_close,
    openAiWs_on_open, openAiWs_on_close, openAiWs_on_error, sendSessionUpdate,
    try_catch, bind, parse, lift, ret, when, openAiWs_readyState, openAiWs_send,
    openAiWs_close, connection_send, read_streamSid, assign_streamSid,
    console_log, console_error, setTimeout_sendSessionUpdate, ws_send, ws_close.

Lemma session_eta (s : session) :
  mkSession (streamSid s) (openAiWs s) (connection s) (pendingTimeouts s) (console s) = s.
Proof. destruct s; reflexivity. Qed.

Lemma websocket_eta (ws : websocket) :
  mkWebSocket (readyState ws) (sent ws) (closeCalls ws) = ws.
Proof. destruct ws; reflexivity. Qed.

Lemma ai_sent_nil (s : session) : ai_sent [] s = s.
Proof.
  unfold ai_sent. rewrite app_nil_r, websocket_eta. apply session_eta.
Qed.

Lemma ai_sent_app (xs ys : list string) (s : session) :
  ai_sent ys (ai_sent xs s) = ai_sent (xs ++ ys) s.
Proof. unfold ai_sent; simpl. now rewrite app_assoc. Qed.

(** One media frame while the AI socket is open: one append goes out. *)
Lemma media_forwarded (message : string) (payload : value) (s : session) :
  media_event_with message payload ->
  readyState (openAiWs s) = OPEN ->
  exec (connection_on_message message) s
  = ai_sent [JSON_stringify (audioAppend payload)] s.
Proof.
  intros (data & media & Hparse & Hevent & Hmedia & Hpayload) Hopen.
  step_handler. rewrite Hparse, Hevent. simpl.
  rewrite Hopen, Hmedia, Hpayload. simpl.
  unfold ai_sent. now rewrite Hopen.
Qed.

(** C1. Every telephony [media] message received while the AI socket is
    ready ([readyState === OPEN]) puts exactly one text on the AI socket,
    the serialised object with [type] ['input_audio_buffer.append'] and
    [audio] the message's [media.payload]; over a sequence of such
    messages the appends go out in arrival order, and nothing else in the
    session changes. *)
Theorem media_appends_in_arrival_order
    (messages : list string) (payloads : list value) (s : session) :
  Forall2 media_event_with messages payloads ->
  readyState (openAiWs s) = OPEN ->
  receive_all messages s
  = ai_sent (map (fun payload =>
                    JSON_stringify (Obj [ ("type", Str "input_audio_buffer.append");
                                          ("audio", payload) ]))
                 payloads) s.
Proof.
intros Hall. revert s.
induction Hall as [| message payload messages payloads Hone _ IH]; intros s Hopen.
- simpl. now rewrite ai_sent_nil.
- simpl. rewrite (media_forwarded _ _ _ Hone Hopen).
  rewrite IH by (simpl; assumption).
  rewrite ai_sent_app. reflexivity.
Qed.

(** C3. A telephony [media] message received while the AI socket is not
    ready is dropped: the handler leaves the whole session as it was, so
    nothing goes to the AI socket, nothing is stored, and whatever
    happens later happens as if the frame had never arrived. *)
Theorem media_dropped_while_not_ready (message : string) (s : session) :
  media_tagged message ->
  readyState (openAiWs s) <> OPEN ->
  exec (connection_on_message message) s = s /\
  forall later, run later (exec (connection_on_message message) s) = run later s.
Proof.
  intros (data & Hparse & Hevent) Hnot.
  assert (Hsame : exec (connection_on_message message) s = s).
  { step_handler. rewrite Hparse, Hevent. simpl.
    destruct (readyState (openAiWs s)); simpl; try reflexivity.
    now elim Hnot. }
  split; [assumption | intros later; now rewrite Hsame].
Qed.

(** *** Exceptions leave the session alone *)

Ltac no_match_inside x :=
  lazymatch x with
  | context [match _ with _ => _ end] => fail
  | _ => idtac
  end.

Ltac split_matches_in H :=
  repeat match type of H with
         | context [match ?x with _ => _ end] =>
             no_match_inside x; destruct x eqn:?; simpl in H
         end.

Ltac same_session H s :=
  try congruence;
  try (injection H as _ <-; destruct s; simpl in *; congruence).

Ltac split_matches :=
  repeat match goal with
         | |- context [match ?x with _ => _ end] =>
             no_match_inside x; destruct x eqn:?; simpl
         end.

Lemma includes_audio_delta (ty : value) :
  strict_eq_str ty "response.audio.delta" = true ->
  includes LOG_EVENT_TYPES ty = false /\ strict_eq_str ty "session.updated" = false.
Proof.
  destruct ty; simpl; try discriminate.
  intros H. apply String.eqb_eq in H. subst. split; reflexivity.
Qed.

(** Whatever the telephony [try] block did before it threw was nothing. *)
Lemma connection_try_throw (message : string) (s s' : session) (e : exn) :
  connection_on_message_try message s = (Throw e, s') -> s' = s.
Proof.
  unfold connection_on_message_try, bind, parse, lift, ret, openAiWs_readyState,
    openAiWs_send, assign_streamSid, console_log, ws_send.
  intros H. split_matches_in H; same_session H s.
Qed.

Lemma openAiWs_try_throw (data : string) (s s' : session) (e : exn) :
  openAiWs_on_message_try data s = (Throw e, s') -> s' = s.
Proof.
  unfold openAiWs_on_message_try, bind, parse, lift, ret.
  destruct (JSON_parse data) as [response |]; [| intros H; congruence].
  destruct (get_prop response "type") as [ty | e0]; [| intros H; congruence].
  destruct (strict_eq_str ty "response.audio.delta") eqn:Hdelta.
  - destruct (includes_audio_delta ty Hdelta) as [-> ->].
    unfold when, ret, read_streamSid, connection_send, ws_send. simpl.
    intros H. split_matches_in H; same_session H s.
  - unfold when, ret, console_log. intros H. split_matches_in H; same_session H s.
Qed.

(** *** The console is write-only *)

Lemma deliver_same_but_console (ev : event) (a b : session) :
  same_but_console a b -> same_but_console (deliver ev a) (deliver ev b).
Proof.
  destruct a as [sid ai tel timers out], b as [sid' ai' tel' timers' out'].
  unfold same_but_console; simpl. intros (-> & -> & -> & ->).
  unfold deliver, enabled, is_closed; simpl.
  destruct ev; unfold fire; step_handler; simpl; split_matches; auto.
Qed.

Lemma run_same_but_console (evs : list event) (a b : session) :
  same_but_console a b -> same_but_console (run evs a) (run evs b).
Proof.
  revert a b. induction evs as [| ev evs IH]; intros a b Hab; simpl.
  - assumption.
  - apply IH. now apply deliver_same_but_console.
Qed.

Lemma logged_same_but_console (line : log_level * list log_arg) (s : session) :
  same_but_console (logged line s) s.
Proof. repeat split. Qed.

Lemma connection_throw_logged (raw : string) (s : session) (e : exn) :
  fst (connection_on_message_try raw s) = Throw e ->
  exec (connection_on_message raw) s
  = logged (ErrorLevel, [ LStr "Error al analizar el mensaje:"; LErr e;
                          LStr "Mensaje:"; LStr raw ]) s.
Proof.
  intros He. unfold exec, connection_on_message, try_catch.
  destruct (connection_on_message_try raw s) as [r s'] eqn:Hbody.
  simpl in He. subst r. apply connection_try_throw in Hbody. now subst s'.
Qed.

Lemma openAiWs_throw_logged (raw : string) (s : session) (e : exn) :
  fst (openAiWs_on_message_try raw s) = Throw e ->
  exec (openAiWs_on_message raw) s
  = logged (ErrorLevel, [ LStr "Error al procesar el mensaje de OpenAI:"; LErr e;
                          LStr "Mensaje en bruto:"; LStr raw ]) s.
Proof.
  intros He. unfold exec, openAiWs_on_message, try_catch.
  destruct (openAiWs_on_message_try raw s) as [r s'] eqn:Hbody.
  simpl in He. subst r. apply openAiWs_try_throw in Hbody. now subst s'.
Qed.

(** C7. A message that fails to decode, on either socket, costs that one
    message and nothing else.  Whenever the [try] block of a message
    listener throws, the listener leaves the session as it was apart
    from one line on the error console: stream identifier, sockets and
    timers are untouched, and every later event is processed exactly as
    it would have been, the console apart.  A text that is not JSON is
    such a message on both sockets: its [try] block throws a
    [SyntaxError]. *)
Theorem decode_failure_discards_one_message (raw : string) (s : session) :
  (forall e, fst (connection_on_message_try raw s) = Throw e ->
     exec (connection_on_message raw) s
     = logged (ErrorLevel, [ LStr "Error al analizar el mensaje:"; LErr e;
                             LStr "Mensaje:"; LStr raw ]) s /\
     forall later,
       same_but_console (run later (exec (connection_on_message raw) s)) (run later s)) /\
  (forall e, fst (openAiWs_on_message_try raw s) = Throw e ->
     exec (openAiWs_on_message raw) s
     = logged (ErrorLevel, [ LStr "Error al procesar el mensaje de OpenAI:"; LErr e;
                             LStr "Mensaje en bruto:"; LStr raw ]) s /\
     forall later,
       same_but_console (run later (exec (openAiWs_on_message raw) s)) (run later s)) /\
  (JSON_parse raw = None ->
     fst (connection_on_message_try raw s) = Throw SyntaxError /\
     fst (openAiWs_on_message_try raw s) = Throw SyntaxError).
Proof.
  split; [| split].
  - intros e He. rewrite (connection_throw_logged _ _ _ He).
    split; [reflexivity |].
    intros later. apply run_same_but_console, logged_same_but_console.
  - intros e He. rewrite (openAiWs_throw_logged _ _ _ He).
    split; [reflexivity |].
    intros later. apply run_same_but_console, logged_same_but_console.
  - intros Hparse. split.
    + unfold connection_on_message_try, bind, parse, lift. now rewrite Hparse.
    + unfold openAiWs_on_message_try, bind, parse, lift. now rewrite Hparse.
Qed.

(** *** What an event does to the sockets' states and the timers *)

Definition ai_state_after (ev : event) (s : session) : ready_state :=
  let ai := readyState (openAiWs s) in
  match ev, ai with
  | AiOpen, CONNECTING => OPEN
  | AiError _, (CONNECTING | OPEN | CLOSING) => CLOSING
  | AiClose, _ => CLOSED
  | TelClose, OPEN => if is_closed (connection s) then OPEN else CLOSING
  | _, _ => ai
  end.

Definition telephony_state_after (ev : event) (s : session) : ready_state :=
  match ev with
  | TelClose => CLOSED
  | _ => readyState (connection s)
  end.

Definition timers_after (ev : event) (s : session) : nat :=
  match ev, readyState (openAiWs s) with
  | AiOpen, CONNECTING => S (pendingTimeouts s)
  | Timeout, _ => pred (pendingTimeouts s)
  | _, _ => pendingTimeouts s
  end.

Lemma deliver_skeleton (ev : event) (s : session) :
  readyState (openAiWs (deliver ev s)) = ai_state_after ev s /\
  readyState (connection (deliver ev s)) = telephony_state_after ev s /\
  pendingTimeouts (deliver ev s) = timers_after ev s.
Proof.
  destruct s as [sid [ai aiout aicalls] [tel telout telcalls] timers out].
  unfold deliver, enabled, is_closed, ai_state_after, telephony_state_after,
    timers_after; simpl.
  destruct ev; unfold fire; step_handler; simpl;
    try (destruct ai, tel, timers; simpl; auto; fail);
    split_matches; simpl in *; try discriminate; auto;
    destruct ai, tel; simpl in *; try discriminate; auto.
Qed.

(** *** The stream identifier *)

Lemma strict_eq_str_true (v : value) (lit : string) :
  strict_eq_str v lit = true -> v = Str lit.
Proof.
  destruct v; simpl; try discriminate.
  intros H. apply String.eqb_eq in H. now subst.
Qed.

(** Only the [start] case writes [streamSid]. *)
Lemma streamSid_kept (ev : event) (s : session) :
  (forall message, ev = TelMessage message -> ~ start_tagged message) ->
  streamSid (deliver ev s) = streamSid s.
Proof.
  intros Hnot. unfold deliver. destruct (enabled ev s); [| reflexivity].
  destruct ev; unfold fire; step_handler; simpl; split_matches; auto.
  exfalso. apply (Hnot message eq_refl).
  match goal with
  | Hp : JSON_parse message = Some ?d, He : get_prop ?d "event" = Ok ?e,
    Hs : strict_eq_str ?e "start" = true |- _ =>
      exists d; split; [exact Hp | now rewrite He, (strict_eq_str_true _ _ Hs)]
  end.
Qed.

Lemma start_assigns (message : string) (sid : value) (s : session) :
  start_event_with message sid ->
  exec (connection_on_message message) s
  = logged (LogLevel, [ LStr "El stream entrante ha comenzado"; LVal sid ])
           (mkSession sid (openAiWs s) (connection s) (pendingTimeouts s) (console s)).
Proof.
  intros (data & start & Hparse & Hevent & Hstart & Hsid).
  step_handler. rewrite Hparse, Hevent. simpl. now rewrite Hstart, Hsid.
Qed.

(** C5, as the code has it.  The stream identifier starts out [null];
    it is written by the [start] case of the telephony listener and by
    nothing else, so every event that is not a telephony [start] message
    leaves it as it is; and each [start] message that carries a
    [start.streamSid] assigns that value, whether or not one was
    assigned before (the last write wins). *)
Theorem streamSid_last_write_wins :
  streamSid new_session = Null /\
  (forall ev s,
     (forall message, ev = TelMessage message -> ~ start_tagged message) ->
     streamSid (deliver ev s) = streamSid s) /\
  (forall message sid s,
     start_event_with message sid ->
     readyState (connection s) <> CLOSED ->
     streamSid (deliver (TelMessage message) s) = sid).
Proof.
  split; [reflexivity |]. split; [exact streamSid_kept |].
  intros message sid s Hstart Hopen.
  unfold deliver, enabled, is_closed.
  destruct (readyState (connection s)); simpl;
    try (now rewrite (start_assigns _ _ _ Hstart)).
  now elim Hopen.
Qed.

(** *** Teardown *)

Lemma telephony_close_closes_open_ai (s : session) :
  readyState (openAiWs s) = OPEN ->
  readyState (connection s) <> CLOSED ->
  deliver TelClose s
  = logged (LogLevel, [ LStr "Cliente desconectado." ])
      (mkSession (streamSid s)
                 (mkWebSocket CLOSING (sent (openAiWs s)) (S (closeCalls (openAiWs s))))
                 (mkWebSocket CLOSED (sent (connection s)) (closeCalls (connection s)))
                 (pendingTimeouts s) (console s)).
Proof.
  destruct s as [sid [ai aiout aicalls] [tel telout telcalls] timers out]; simpl.
  intros -> Htel. destruct tel; try reflexivity. now elim Htel.
Qed.

Lemma telephony_close_spares_unopened_ai (s : session) :
  readyState (openAiWs s) <> OPEN ->
  readyState (connection s) <> CLOSED ->
  deliver TelClose s
  = logged (LogLevel, [ LStr "Cliente desconectado." ])
      (mkSession (streamSid s) (openAiWs s)
                 (mkWebSocket CLOSED (sent (connection s)) (closeCalls (connection s)))
                 (pendingTimeouts s) (console s)).
Proof.
  destruct s as [sid [ai aiout aicalls] [tel telout telcalls] timers out]; simpl.
  intros Hai Htel.
  destruct tel; try (now elim Htel); destruct ai; try (now elim Hai); reflexivity.
Qed.

Lemma ai_events_spare_telephony (s : session) :
  connection (deliver AiClose s) = connection s /\
  (forall error, connection (deliver (AiError error) s) = connection s).
Proof.
  unfold deliver, enabled. split; [| intros error];
    destruct (negb (is_closed (openAiWs s))); reflexivity.
Qed.

(** C4, as the code has it.  Teardown runs one way.  When the telephony
    socket closes while the AI socket is open, the listener calls
    [close()] on the AI socket, which leaves [OPEN] for [CLOSING].  When
    the AI socket closes or reports an error, the listeners only write
    to the console: the telephony socket is left exactly as it was. *)
Theorem teardown_runs_one_way (s : session) :
  (readyState (openAiWs s) = OPEN ->
   readyState (connection s) <> CLOSED ->
   readyState (openAiWs (deliver TelClose s)) = CLOSING /\
   closeCalls (openAiWs (deliver TelClose s)) = S (closeCalls (openAiWs s)) /\
   readyState (connection (deliver TelClose s)) = CLOSED) /\
  connection (deliver AiClose s) = connection s /\
  (forall error, connection (deliver (AiError error) s) = connection s).
Proof.
  split; [| exact (ai_events_spare_telephony s)].
  intros Hai Htel. rewrite (telephony_close_closes_open_ai s Hai Htel).
  repeat split.
Qed.

(** C10. When the telephony socket closes while the AI socket is not
    [OPEN] -- still connecting, in particular -- the guard keeps the
    listener from calling [close()] on it: the AI socket is left exactly
    as it was (same state, nothing sent, no [close()] call), and if it
    was connecting it opens afterwards as it would have, scheduling its
    session update. *)
Theorem telephony_close_leaves_connecting_ai (s : session) :
  readyState (openAiWs s) <> OPEN ->
  readyState (connection s) <> CLOSED ->
  openAiWs (deliver TelClose s) = openAiWs s /\
  (readyState (openAiWs s) = CONNECTING ->
   readyState (openAiWs (deliver AiOpen (deliver TelClose s))) = OPEN /\
   pendingTimeouts (deliver AiOpen (deliver TelClose s)) = S (pendingTimeouts s)).
Proof.
  intros Hai Htel. rewrite (telephony_close_spares_unopened_ai s Hai Htel).
  split; [reflexivity |].
  intros Hconnecting.
  match goal with
  | |- context [deliver AiOpen ?t] => destruct (deliver_skeleton AiOpen t) as (Ha & _ & Ht)
  end.
  rewrite Ha, Ht. unfold ai_state_after, timers_after; simpl.
  now rewrite Hconnecting.
Qed.

(** Once both sides are down nothing is sent and nothing is closed again. *)
Lemma torn_down_deliver (ev : event) (s : session) :
  torn_down s ->
  torn_down (deliver ev s) /\
  sent (openAiWs (deliver ev s)) = sent (openAiWs s) /\
  sent (connection (deliver ev s)) = sent (connection s) /\
  closeCalls (openAiWs (deliver ev s)) = closeCalls (openAiWs s).
Proof.
  destruct s as [sid [ai aiout aicalls] [tel telout telcalls] timers out].
  unfold torn_down; simpl. intros (-> & Hai).
  unfold deliver, enabled, is_closed; simpl.
  destruct Hai as [-> | ->];
    destruct ev; unfold fire; step_handler; simpl; split_matches; auto.
Qed.

Lemma torn_down_run (evs : list event) (s : session) :
  torn_down s ->
  sent (openAiWs (run evs s)) = sent (openAiWs s) /\
  sent (connection (run evs s)) = sent (connection s) /\
  closeCalls (openAiWs (run evs s)) = closeCalls (openAiWs s).
Proof.
  revert s. induction evs as [| ev evs IH]; intros s Hdown; simpl.
  - auto.
  - destruct (torn_down_deliver ev s Hdown) as (Hdown' & Hai & Htel & Hcalls).
    destruct (IH _ Hdown') as (Hai' & Htel' & Hcalls').
    rewrite Hai', Htel', Hcalls'. auto.
Qed.

(** C6, as the code has it.  When the telephony socket closes and the
    AI socket is not still connecting, the listener calls [close()] on
    the AI socket exactly once if it is open and not at all if it is
    already closing or closed; and from then on, whatever events still
    arrive (messages from the closing AI socket, the pending timer, the
    AI socket's own close), nothing more is put on either wire and
    [close()] is not called again. *)
Theorem telephony_close_ends_session (s : session) (later : list event) :
  readyState (openAiWs s) <> CONNECTING ->
  readyState (connection s) <> CLOSED ->
  closeCalls (openAiWs (deliver TelClose s))
  = (if ready_state_eqb (readyState (openAiWs s)) OPEN
     then S (closeCalls (openAiWs s))
     else closeCalls (openAiWs s)) /\
  sent (openAiWs (deliver TelClose s)) = sent (openAiWs s) /\
  sent (connection (deliver TelClose s)) = sent (connection s) /\
  closeCalls (openAiWs (run later (deliver TelClose s)))
    = closeCalls (openAiWs (deliver TelClose s)) /\
  sent (openAiWs (run later (deliver TelClose s))) = sent (openAiWs (deliver TelClose s)) /\
  sent (connection (run later (deliver TelClose s))) = sent (connection (deliver TelClose s)).
Proof.
intros Hai Htel.
assert (Hdown : torn_down (deliver TelClose s)).
{ destruct (readyState (openAiWs s)) eqn:Hstate; try (now elim Hai).
  - rewrite (telephony_close_closes_open_ai s Hstate Htel). split; simpl; auto.
  - rewrite (telephony_close_spares_unopened_ai s) by (assumption || congruence).
    split; simpl; auto.
  - rewrite (telephony_close_spares_unopened_ai s) by (assumption || congruence).
    split; simpl; auto. }
destruct (torn_down_run later _ Hdown) as (Hs1 & Hs2 & Hc).
rewrite Hs1, Hs2, Hc.
destruct (readyState (openAiWs s)) eqn:Hstate; try (now elim Hai); simpl.
- rewrite (telephony_close_closes_open_ai s Hstate Htel). simpl. auto 6.
- rewrite (telephony_close_spares_unopened_ai s) by (assumption || congruence).
  simpl. auto 6.
- rewrite (telephony_close_spares_unopened_ai s) by (assumption || congruence).
  simpl. auto 6.
Qed.

(** *** The session update *)

Lemma open_schedules_update (s : session) :
  readyState (openAiWs s) = CONNECTING ->
  deliver AiOpen s
  = logged (LogLevel, [ LStr "Conectado a la API Realtime de OpenAI" ])
      (mkSession (streamSid s)
                 (mkWebSocket OPEN (sent (openAiWs s)) (closeCalls (openAiWs s)))
                 (connection s) (S (pendingTimeouts s)) (console s)).
Proof.
  destruct s as [sid [ai aiout aicalls] tel timers out]; simpl.
  intros ->. reflexivity.
Qed.

(** The timer's [sendSessionUpdate]: the session update goes out if the
    AI socket is open, and nowhere otherwise. *)
Lemma timer_sends_update (s : session) :
  pendingTimeouts s <> 0 ->
  pendingTimeouts (deliver Timeout s) = pred (pendingTimeouts s) /\
  sent (openAiWs (deliver Timeout s))
  = (sent (openAiWs s)
     ++ if ready_state_eqb (readyState (openAiWs s)) OPEN
        then [JSON_stringify sessionUpdate] else [])%list.
Proof.
destruct s as [sid [ai aiout aicalls] tel timers out]; simpl.
intros Htimers. destruct timers; [now elim Htimers |].
destruct ai; simpl; rewrite ?app_nil_r; auto.
Qed.

Lemma event_is_timeout (ev : event) : ev = Timeout \/ ev <> Timeout.
Proof. destruct ev; auto; right; discriminate. Qed.

(** No event but the timer puts anything on the AI socket except audio
    appends. *)
Lemma only_timer_sends_update (ev : event) (s : session) :
  ev <> Timeout ->
  exists payloads,
    sent (openAiWs (deliver ev s))
    = (sent (openAiWs s)
       ++ map (fun payload =>
                 JSON_stringify (Obj [ ("type", Str "input_audio_buffer.append");
                                       ("audio", payload) ]))
              payloads)%list.
Proof.
intros Hev.
destruct s as [sid [ai aiout aicalls] [tel telout telcalls] timers out].
unfold deliver, enabled, is_closed, fire; simpl.
destruct ev; try (now elim Hev); step_handler; simpl; split_matches;
  first [ exists []; simpl; now rewrite app_nil_r
        | eexists [_]; reflexivity ].
Qed.

(** What the AI socket has sent: audio appends, with at most one session
    update among them, and none yet while the AI socket is connecting or
    the settling timer is pending. *)
Definition update_at_most_once (s : session) : Prop :=
  pendingTimeouts s <= 1 /\
  (readyState (openAiWs s) = CONNECTING -> pendingTimeouts s = 0) /\
  exists before update after,
    sent (openAiWs s)
    = (map (fun payload =>
              JSON_stringify (Obj [ ("type", Str "input_audio_buffer.append");
                                    ("audio", payload) ]))
           before
       ++ update
       ++ map (fun payload =>
                 JSON_stringify (Obj [ ("type", Str "input_audio_buffer.append");
                                       ("audio", payload) ]))
              after)%list /\
    (update = [] \/ update = [JSON_stringify sessionUpdate]) /\
    (readyState (openAiWs s) = CONNECTING \/ pendingTimeouts s = 1 ->
     update = [] /\ after = []).

(** Only the ['open'] event arms a timer, once, and only the timer
    disarms it; a socket that has left [CONNECTING] does not return. *)
Lemma deliver_control (ev : event) (s : session) :
  (readyState (openAiWs (deliver ev s)) = CONNECTING ->
   readyState (openAiWs s) = CONNECTING) /\
  (ev <> Timeout ->
   pendingTimeouts (deliver ev s) = pendingTimeouts s \/
   readyState (openAiWs s) = CONNECTING /\
   readyState (openAiWs (deliver ev s)) <> CONNECTING /\
   pendingTimeouts (deliver ev s) = S (pendingTimeouts s)) /\
  (ev = Timeout ->
   readyState (openAiWs (deliver ev s)) = readyState (openAiWs s) /\
   pendingTimeouts (deliver ev s) = pred (pendingTimeouts s)).
Proof.
destruct (deliver_skeleton ev s) as (Hstate & _ & Htimers).
rewrite Hstate, Htimers. unfold ai_state_after, timers_after.
destruct ev, (readyState (openAiWs s)); simpl;
  try destruct (is_closed (connection s));
  repeat split; try congruence; auto;
  right; repeat split; congruence.
Qed.

Lemma timer_not_pending (s : session) :
  pendingTimeouts s = 0 -> deliver Timeout s = s.
Proof.
intros Hzero. unfold deliver, enabled. now rewrite Hzero.
Qed.

Lemma update_at_most_once_kept (ev : event) (s : session) :
  update_at_most_once s -> update_at_most_once (deliver ev s).
Proof.
intros (Hle & Hconnecting & before & update & after & Hsent & Hupdate & Hpending).
destruct (deliver_control ev s) as (Hback & Hother & Htimer).
destruct (event_is_timeout ev) as [-> | Hev].
- (* the timer *)
  destruct (Nat.eq_dec (pendingTimeouts s) 0) as [Hzero | Hsome].
  { rewrite (timer_not_pending s Hzero).
    split; [assumption |]. split; [assumption |].
    exists before, update, after. auto. }
  destruct (Htimer eq_refl) as (Hstate & Htimers).
  destruct (timer_sends_update s Hsome) as (_ & Hnew).
  assert (Hone : pendingTimeouts s = 1) by lia.
  destruct (Hpending (or_intror Hone)) as [-> ->].
  unfold update_at_most_once. rewrite Hstate, Htimers, Hone. simpl.
  split; [lia |]. split; [reflexivity |].
  exists before,
    (if ready_state_eqb (readyState (openAiWs s)) OPEN
     then [JSON_stringify sessionUpdate] else []), [].
  rewrite Hnew, Hsent. simpl. rewrite !app_nil_r.
  split; [reflexivity |]. split.
  + destruct (ready_state_eqb (readyState (openAiWs s)) OPEN); auto.
  + intros [H | H]; [| discriminate]. rewrite Hconnecting in Hone by exact H. discriminate.
- (* any other event *)
  destruct (only_timer_sends_update ev s Hev) as [payloads Hnew].
  specialize (Hother Hev).
  unfold update_at_most_once.
  destruct (ready_state_eqb (readyState (openAiWs s)) CONNECTING) eqn:Hai;
    [| destruct (Nat.eq_dec (pendingTimeouts s) 1) as [Hone | Hnot_one]].
  + (* still connecting: nothing but appends so far *)
    assert (Hc : readyState (openAiWs s) = CONNECTING)
      by (destruct (readyState (openAiWs s)); simpl in Hai; congruence).
    destruct (Hpending (or_introl Hc)) as [-> ->].
    pose proof (Hconnecting Hc) as Hzero.
    split; [destruct Hother as [-> | (_ & _ & ->)]; lia |].
    split.
    { intros Hc'. destruct Hother as [-> | (_ & Hleft & _)]; [assumption | contradiction]. }
    exists (before ++ payloads)%list, [], [].
    rewrite Hnew, Hsent, map_app. simpl. rewrite !app_nil_r. auto.
  + (* the timer is pending: nothing but appends so far *)
    assert (Hc : readyState (openAiWs s) <> CONNECTING)
      by (intros H; rewrite H in Hai; discriminate).
    destruct (Hpending (or_intror Hone)) as [-> ->].
    destruct Hother as [Hsame | (Hc' & _)]; [| contradiction].
    rewrite Hsame.
    split; [lia |]. split; [intros H; now apply Hback in H |].
    exists (before ++ payloads)%list, [], [].
    rewrite Hnew, Hsent, map_app. simpl. rewrite !app_nil_r. auto.
  + (* the timer has fired or was never armed *)
    assert (Hc : readyState (openAiWs s) <> CONNECTING)
      by (intros H; rewrite H in Hai; discriminate).
    destruct Hother as [Hsame | (Hc' & _)]; [| contradiction].
    rewrite Hsame.
    split; [lia |]. split; [intros H; now apply Hback in H |].
    exists before, update, (after ++ payloads)%list.
    rewrite Hnew, Hsent, map_app, <- !app_assoc.
    split; [reflexivity |]. split; [assumption |].
    intros [H | H]; [now apply Hback in H | contradiction].
Qed.

Lemma update_at_most_once_run (evs : list event) (s : session) :
  update_at_most_once s -> update_at_most_once (run evs s).
Proof.
revert s. induction evs as [| ev evs IH]; intros s Hinv; simpl.
- exact Hinv.
- apply IH, update_at_most_once_kept, Hinv.
Qed.

Lemma update_at_most_once_new : update_at_most_once new_session.
Proof.
split; [simpl; lia |]. split; [reflexivity |].
exists [], [], []. simpl. auto.
Qed.

(** C8, as the code has it.  Opening the AI socket sends nothing by
    itself and arms one settling timer.  When the timer fires,
    [sendSessionUpdate] puts exactly one text on the AI socket, the
    serialised [session.update], provided the socket is still open; if
    the socket has been closed in the meantime nothing is sent.  Over a
    whole session what the AI socket sends is audio appends with at most
    one session update among them.  The message carries the fixed
    fields: turn detection [server_vad], input and output audio format
    [g711_ulaw], modalities text and audio, temperature 0.8, with the
    configured voice and instructions. *)
Theorem session_update_after_open (s : session) :
  (readyState (openAiWs s) = CONNECTING ->
     sent (openAiWs (deliver AiOpen s)) = sent (openAiWs s) /\
     readyState (openAiWs (deliver AiOpen s)) = OPEN /\
     pendingTimeouts (deliver AiOpen s) = S (pendingTimeouts s)) /\
  (pendingTimeouts s <> 0 ->
     pendingTimeouts (deliver Timeout s) = pred (pendingTimeouts s) /\
     sent (openAiWs (deliver Timeout s))
     = (sent (openAiWs s)
        ++ if ready_state_eqb (readyState (openAiWs s)) OPEN
           then [JSON_stringify sessionUpdate] else [])%list) /\
  (forall evs, exists before update after,
     sent (openAiWs (run evs new_session))
     = (map (fun payload =>
               JSON_stringify (Obj [ ("type", Str "input_audio_buffer.append");
                                     ("audio", payload) ]))
            before
        ++ update
        ++ map (fun payload =>
                  JSON_stringify (Obj [ ("type", Str "input_audio_buffer.append");
                                        ("audio", payload) ]))
               after)%list /\
     (update = [] \/ update = [JSON_stringify sessionUpdate])) /\
  get_prop sessionUpdate "type" = Ok (Str "session.update") /\
  exists config,
    get_prop sessionUpdate "session" = Ok config /\
    get_prop config "turn_detection" = Ok (Obj [ ("type", Str "server_vad") ]) /\
    get_prop config "input_audio_format" = Ok (Str "g711_ulaw") /\
    get_prop config "output_audio_format" = Ok (Str "g711_ulaw") /\
    get_prop config "voice" = Ok (Str "alloy") /\
    get_prop config "instructions" = Ok (Str SYSTEM_MESSAGE) /\
    get_prop config "modalities" = Ok (Arr [ Str "text"; Str "audio" ]) /\
    get_prop config "temperature" = Ok (Num (8 # 10)%Q).
Proof.
split; [| split; [| split; [| split]]].
- intros Hai. rewrite (open_schedules_update s Hai). simpl. auto.
- exact (timer_sends_update s).
- intros evs.
  destruct (update_at_most_once_run evs new_session update_at_most_once_new)
    as (_ & _ & before & update & after & Hsent & Hupdate & _).
  exists before, update, after. auto.
- reflexivity.
- eexists. split; [reflexivity |]. repeat split.
Qed.

(** *** Base64: canonical text survives decoding and re-encoding *)

Lemma digit_inverts_all (c : ascii) : digit_inverts c = true.
Proof. destruct c as [[] [] [] [] [] [] [] []]; vm_compute; reflexivity. Qed.

Lemma std_value_digit (c : ascii) (v : N) :
  Base64.std_value c = Some v ->
  (v < 64)%N /\ Base64.digit v = c /\
  Base64.unbase64 c = Some v /\ Ascii.eqb c Base64.pad = false.
Proof.
  intros H. pose proof (digit_inverts_all c) as C.
  unfold digit_inverts in C. rewrite H in C.
  destruct (Base64.unbase64 c) as [v' |];
    [| rewrite andb_false_r in C; discriminate].
  apply andb_prop in C as [C Hpad]. apply andb_prop in C as [C Hun].
  apply andb_prop in C as [Hlt Hdigit].
  apply N.ltb_lt in Hlt. apply Ascii.eqb_eq in Hdigit.
  apply N.eqb_eq in Hun. apply negb_true_iff in Hpad.
  subst v'. auto.
Qed.

Lemma is_std_value (c : ascii) :
  Base64.is_std c = true -> exists v, Base64.std_value c = Some v.
Proof.
  unfold Base64.is_std. destruct (Base64.std_value c) as [v |]; [| discriminate].
  intros _. now exists v.
Qed.

Lemma low_bits_clear_value (c : ascii) (m : N) :
  Base64.low_bits_clear c m = true ->
  exists v, Base64.std_value c = Some v /\ (v mod m = 0)%N.
Proof.
  unfold Base64.low_bits_clear. destruct (Base64.std_value c) as [v |]; [| discriminate].
  intros H. apply N.eqb_eq in H. now exists v.
Qed.

Lemma div_mul_add (m q r : N) : (r < m -> (q * m + r) / m = q)%N.
Proof.
  intros Hr. symmetry. apply (N.div_unique _ m q r); [assumption | lia].
Qed.

Lemma mod_mul_add (m q r : N) : (r < m -> (q * m + r) mod m = r)%N.
Proof.
  intros Hr. symmetry. apply (N.mod_unique _ m q r); [assumption | lia].
Qed.

(** A sextet [v] splits at bit [k] into a high and a low part. *)
Lemma sextet_split (v m n : N) :
  (v < m * n -> m <> 0 ->
   exists hi lo, v = hi * m + lo /\ lo < m /\ hi < n /\ v / m = hi /\ v mod m = lo)%N.
Proof.
  intros Hv Hm. exists (v / m)%N, (v mod m)%N.
  assert (Hlo : (v mod m < m)%N) by now apply N.mod_lt.
  assert (Heq : (v = m * (v / m) + v mod m)%N) by now apply N.div_mod.
  repeat split; try assumption; [lia |].
  apply N.Div0.div_lt_upper_bound; lia.
Qed.

(** Three bytes made of four sextets give the four sextets back. *)
Lemma group_round_trip (a b c d : N) :
  (a < 64 -> b < 64 -> c < 64 -> d < 64 ->
   let x := a * 4 + b / 16 in
   let y := (b mod 16) * 16 + c / 4 in
   let z := (c mod 4) * 64 + d in
   x / 4 = a /\ (x mod 4) * 16 + y / 16 = b /\
   (y mod 16) * 4 + z / 64 = c /\ z mod 64 = d)%N.
Proof.
  intros Ha Hb Hc Hd.
  destruct (sextet_split b 16 4) as (bh & bl & -> & Hbl & Hbh & -> & ->); [lia | lia |].
  destruct (sextet_split c 4 16) as (ch & cl & -> & Hcl & Hch & -> & ->); [lia | lia |].
  simpl.
  rewrite (div_mul_add 4 a bh), (mod_mul_add 4 a bh) by assumption.
  rewrite (div_mul_add 16 bl ch), (mod_mul_add 16 bl ch) by assumption.
  rewrite (div_mul_add 64 cl d), (mod_mul_add 64 cl d) by assumption.
  auto.
Qed.

Lemma canonical_chars_round_trip_upto (n : nat) (cs : list ascii) :
  length cs <= n ->
  Base64.canonical_chars cs = true ->
  Base64.encode_chars (Base64.bytes_of_sextets (Base64.sextets cs)) = cs.
Proof.
  revert cs. induction n as [| n IH]; intros cs Hlen.
  { destruct cs; [reflexivity | simpl in Hlen; lia]. }
  destruct cs as [| c1 [| c2 [| c3 [| c4 rest]]]]; simpl; try discriminate; [reflexivity |].
  destruct rest as [| c5 rest'].
  - (* the last group *)
    unfold Base64.canonical_last. clear IH.
    intros H. apply andb_prop in H as [H12 Hlast]. apply andb_prop in H12 as [H1 H2].
    apply is_std_value in H1 as [v1 H1]. apply is_std_value in H2 as [v2 H2].
    destruct (std_value_digit _ _ H1) as (B1 & D1 & U1 & P1).
    destruct (std_value_digit _ _ H2) as (B2 & D2 & U2 & P2).
    rewrite P1, U1, P2, U2.
    destruct (Ascii.eqb c4 Base64.pad) eqn:P4.
    + apply Ascii.eqb_eq in P4. subst c4.
      destruct (Ascii.eqb c3 Base64.pad) eqn:P3.
      * apply Ascii.eqb_eq in P3. subst c3.
        apply low_bits_clear_value in Hlast as (v2' & H2' & Hclear).
        rewrite H2 in H2'. injection H2' as <-.
        destruct (sextet_split v2 16 4) as (h & l & -> & Hl & Hh & Hdiv & Hmod);
          [lia | lia |].
        rewrite Hmod in Hclear. subst l. simpl.
        rewrite Hdiv, (div_mul_add 4 v1 h), (mod_mul_add 4 v1 h) by assumption.
        rewrite N.add_0_r in D2. now rewrite D1, D2.
      * apply low_bits_clear_value in Hlast as (v3 & H3 & Hclear).
        destruct (std_value_digit _ _ H3) as (B3 & D3 & U3 & _).
        rewrite U3. simpl.
        destruct (group_round_trip v1 v2 v3 0) as (E1 & E2 & _ & _); try assumption; [lia |].
        simpl in E1, E2. rewrite E1, E2.
        destruct (sextet_split v3 4 16) as (h & l & -> & Hl & Hh & Hdiv & Hmod);
          [lia | lia |].
        rewrite Hmod in Hclear. subst l.
        rewrite Hdiv, (mod_mul_add 16 (v2 mod 16) h) by assumption.
        rewrite N.add_0_r in D3. now rewrite D1, D2, D3.
    + apply andb_prop in Hlast as [H3 H4].
      apply is_std_value in H3 as [v3 H3]. apply is_std_value in H4 as [v4 H4].
      destruct (std_value_digit _ _ H3) as (B3 & D3 & U3 & P3).
      destruct (std_value_digit _ _ H4) as (B4 & D4 & U4 & _).
      rewrite P3, U3, U4. simpl.
      destruct (group_round_trip v1 v2 v3 v4) as (E1 & E2 & E3 & E4); try assumption.
      simpl in E1, E2, E3, E4. rewrite E1, E2, E3, E4.
      now rewrite D1, D2, D3, D4.
  - (* a full group followed by more *)
    intros H.
    apply andb_prop in H as [H Hrest]. apply andb_prop in H as [H H4].
    apply andb_prop in H as [H H3]. apply andb_prop in H as [H1 H2].
    apply is_std_value in H1 as [v1 H1]. apply is_std_value in H2 as [v2 H2].
    apply is_std_value in H3 as [v3 H3]. apply is_std_value in H4 as [v4 H4].
    destruct (std_value_digit _ _ H1) as (B1 & D1 & U1 & P1).
    destruct (std_value_digit _ _ H2) as (B2 & D2 & U2 & P2).
    destruct (std_value_digit _ _ H3) as (B3 & D3 & U3 & P3).
    destruct (std_value_digit _ _ H4) as (B4 & D4 & U4 & P4).
    rewrite P1, U1, P2, U2, P3, U3, P4, U4.
    assert (Hshorter : length (c5 :: rest') <= n) by (simpl in Hlen |- *; lia).
    specialize (IH (c5 :: rest') Hshorter Hrest).
    cbn [Base64.bytes_of_sextets Base64.encode_chars].
    destruct (group_round_trip v1 v2 v3 v4) as (E1 & E2 & E3 & E4); try assumption.
    simpl in E1, E2, E3, E4. rewrite E1, E2, E3, E4, D1, D2, D3, D4.
    now rewrite IH.
Qed.

Lemma alphabet_is_plain_all (c : ascii) : alphabet_is_plain c = true.
Proof. destruct c as [[] [] [] [] [] [] [] []]; vm_compute; reflexivity. Qed.

Lemma std_is_plain (c : ascii) : Base64.is_std c = true -> is_plain c = true.
Proof.
intros Hstd. pose proof (alphabet_is_plain_all c) as H.
unfold alphabet_is_plain in H. now rewrite Hstd in H.
Qed.

Lemma low_bits_clear_is_std (c : ascii) (m : N) :
  Base64.low_bits_clear c m = true -> Base64.is_std c = true.
Proof.
unfold Base64.low_bits_clear, Base64.is_std.
now destruct (Base64.std_value c).
Qed.

Lemma canonical_chars_plain_upto (n : nat) (cs : list ascii) :
  length cs <= n ->
  Base64.canonical_chars cs = true ->
  forallb is_plain cs = true.
Proof.
revert cs. induction n as [| n IH]; intros cs Hlen.
{ destruct cs; [reflexivity | simpl in Hlen; lia]. }
destruct cs as [| c1 [| c2 [| c3 [| c4 rest]]]]; simpl; try discriminate; [reflexivity |].
destruct rest as [| c5 rest'].
- unfold Base64.canonical_last. intros H.
  apply andb_prop in H as [H12 Hlast]. apply andb_prop in H12 as [H1 H2].
  rewrite (std_is_plain _ H1), (std_is_plain _ H2). simpl.
  destruct (Ascii.eqb c4 Base64.pad) eqn:P4.
  + apply Ascii.eqb_eq in P4. subst c4.
    destruct (Ascii.eqb c3 Base64.pad) eqn:P3.
    * apply Ascii.eqb_eq in P3. subst c3. reflexivity.
    * now rewrite (std_is_plain _ (low_bits_clear_is_std _ _ Hlast)).
  + apply andb_prop in Hlast as [H3 H4].
    now rewrite (std_is_plain _ H3), (std_is_plain _ H4).
- intros H.
  apply andb_prop in H as [H Hrest]. apply andb_prop in H as [H H4].
  apply andb_prop in H as [H H3]. apply andb_prop in H as [H1 H2].
  rewrite (std_is_plain _ H1), (std_is_plain _ H2), (std_is_plain _ H3),
    (std_is_plain _ H4).
  apply (IH (c5 :: rest')); [simpl in Hlen |- *; lia | exact Hrest].
Qed.

(** Plain characters are read as they stand. *)
Lemma plain_units (cs : list ascii) :
  forallb is_plain cs = true ->
  map (fun unit => ascii_of_N (unit mod 256)) (Utf16.units (map N_of_ascii cs)) = cs.
Proof.
induction cs as [| c cs IH]; simpl; [reflexivity |].
intros H. apply andb_prop in H as [Hc Hcs].
unfold is_plain in Hc. rewrite Hc. simpl.
apply N.ltb_lt in Hc.
rewrite N.mod_small by lia. now rewrite ascii_N_embedding, IH.
Qed.

Lemma canonical_low_bytes (text : string) :
  Base64.canonical text = true ->
  Base64.low_bytes text = list_ascii_of_string text.
Proof.
intros H. unfold Base64.low_bytes, Utf16.of_string.
apply plain_units, (canonical_chars_plain_upto _ _ (le_n _) H).
Qed.

Lemma canonical_round_trip (text : string) :
  Base64.canonical text = true ->
  Base64.encode (Base64.decode text) = text.
Proof.
intros H. unfold Base64.encode, Base64.decode.
rewrite (canonical_low_bytes _ H).
unfold Base64.canonical in H.
rewrite (canonical_chars_round_trip_upto _ _ (le_n _) H).
apply string_of_list_ascii_of_string.
Qed.

(** *** Audio from the AI side *)

Lemma nonempty_truthy (text : string) : text <> "" -> truthy (Str text) = true.
Proof.
intros Hne. simpl. destruct text; [now elim Hne | reflexivity].
Qed.

(** An audio delta with a non-empty string goes out as one media frame,
    tagged with the current [streamSid], its payload decoded and encoded
    again. *)
Lemma audio_delta_forwarded (data delta : string) (s : session) :
  audio_delta_with data delta ->
  delta <> "" ->
  readyState (connection s) = OPEN ->
  exec (openAiWs_on_message data) s
  = telephony_sent
      [JSON_stringify (audioDelta (streamSid s) (Base64.encode (Base64.decode delta)))] s.
Proof.
intros (response & Hparse & Htype & Hdelta) Hne Hopen.
step_handler. rewrite Hparse, Htype. simpl.
rewrite Hdelta. simpl.
pose proof (nonempty_truthy _ Hne) as Htruthy. simpl in Htruthy. rewrite Htruthy.
simpl. rewrite Hopen. unfold telephony_sent. now rewrite Hopen.
Qed.

(** C2, as the code has it.  An AI event of type [response.audio.delta]
    whose [delta] is a non-empty string puts exactly one text on the open
    telephony socket and changes nothing else: the serialised object
    with [event] ['media'], [streamSid] the session's current stream
    identifier, and [media.payload] the base64 text of the bytes that
    [delta] decodes to.  That payload is [delta] itself whenever [delta]
    is canonical base64 (standard alphabet, whole groups of four, padded,
    unused bits clear). *)
Theorem audio_delta_relayed_reencoded (data delta : string) (s : session) :
  audio_delta_with data delta ->
  delta <> "" ->
  readyState (connection s) = OPEN ->
  exec (openAiWs_on_message data) s
  = telephony_sent
      [JSON_stringify
         (Obj [ ("event", Str "media");
                ("streamSid", streamSid s);
                ("media", Obj [ ("payload", Str (Base64.encode (Base64.decode delta))) ]) ])]
      s /\
  (Base64.canonical delta = true ->
   exec (openAiWs_on_message data) s
   = telephony_sent
       [JSON_stringify
          (Obj [ ("event", Str "media");
                 ("streamSid", streamSid s);
                 ("media", Obj [ ("payload", Str delta) ]) ])]
       s).
Proof.
intros Hdelta Hne Hopen.
pose proof (audio_delta_forwarded data delta s Hdelta Hne Hopen) as Hsent.
split; [exact Hsent |].
intros Hcanonical. rewrite Hsent, (canonical_round_trip _ Hcanonical). reflexivity.
Qed.

Lemma streamSid_kept_run (evs : list event) (s : session) :
  Forall (fun ev => forall message, ev = TelMessage message -> ~ start_tagged message) evs ->
  streamSid (run evs s) = streamSid s.
Proof.
intros Hall. revert s.
induction Hall as [| ev evs Hev _ IH]; intros s; simpl.
- reflexivity.
- now rewrite IH, (streamSid_kept ev s Hev).
Qed.

(** C9, as the code has it.  As long as no telephony [start] message
    has been handled the stream identifier is still [null], and an AI
    audio delta with a non-empty string arriving then, while the
    telephony socket is open, is relayed all the same: exactly one text
    goes out on the telephony socket, the serialised media frame with
    [streamSid: null]. *)
Theorem audio_delta_before_start (before : list event) (data delta : string) :
  Forall (fun ev => forall message, ev = TelMessage message -> ~ start_tagged message)
         before ->
  audio_delta_with data delta ->
  delta <> "" ->
  readyState (connection (run before new_session)) = OPEN ->
  streamSid (run before new_session) = Null /\
  sent (connection (exec (openAiWs_on_message data) (run before new_session)))
  = (sent (connection (run before new_session))
     ++ [JSON_stringify
           (Obj [ ("event", Str "media");
                  ("streamSid", Null);
                  ("media",
                    Obj [ ("payload", Str (Base64.encode (Base64.decode delta))) ]) ])])%list.
Proof.
intros Hbefore Hdelta Hne Hopen.
pose proof (streamSid_kept_run before new_session Hbefore) as Hsid. simpl in Hsid.
split; [exact Hsid |].
rewrite (audio_delta_forwarded data delta _ Hdelta Hne Hopen), Hsid. reflexivity.
Qed.

End Bridge.

(** * Worked examples

    The bridge run with the concrete library of [Sample], on the texts of
    the specification's scenarios. *)
Module Demo.

Definition on_telephony : string -> M unit :=
  connection_on_message Sample.parse Sample.stringify.

Definition on_ai : string -> M unit :=
  openAiWs_on_message Sample.parse Sample.stringify Sample.Buffer_from_object.

Definition deliver : event -> session -> session :=
  deliver Sample.parse Sample.stringify Sample.Buffer_from_object.

Definition run : list event -> session -> session :=
  run Sample.parse Sample.stringify Sample.Buffer_from_object.

Definition start_SD123 : string := Sample.stringify (Sample.start_event "SD123").
Definition start_SD456 : string := Sample.stringify (Sample.start_event "SD456").
Definition media_AAAA : string := Sample.stringify (Sample.media_event "AAAA").
Definition media_QUJD : string := Sample.stringify (Sample.media_event "QUJD").
Definition delta_QUJD : string := Sample.stringify (Sample.delta_event "QUJD").
Definition delta_QQ : string := Sample.stringify (Sample.delta_event "QQ").
Definition not_json : string := "not json".

(** Both sockets open, no stream started yet. *)
Definition opened : session := run [AiOpen] new_session.

(** Both sockets open and the stream [SD123] started. *)
Definition active : session := run [AiOpen; TelMessage start_SD123] new_session.

End Demo.

Lemma media_appends_in_arrival_order_witness :
  Forall2 (media_event_with Sample.parse)
          [Demo.media_AAAA; Demo.media_QUJD] [Str "AAAA"; Str "QUJD"] /\
  readyState (openAiWs Demo.active) = OPEN /\
  receive_all Sample.parse Sample.stringify [Demo.media_AAAA; Demo.media_QUJD] Demo.active
  = ai_sent [ Sample.stringify (Obj [ ("type", Str "input_audio_buffer.append");
                                      ("audio", Str "AAAA") ]);
              Sample.stringify (Obj [ ("type", Str "input_audio_buffer.append");
                                      ("audio", Str "QUJD") ]) ] Demo.active.
Proof.
assert (Hmedia : Forall2 (media_event_with Sample.parse)
                         [Demo.media_AAAA; Demo.media_QUJD] [Str "AAAA"; Str "QUJD"]).
{ constructor; [| constructor; [| constructor]].
  - exists (Sample.media_event "AAAA"), (Obj [("payload", Str "AAAA")]).
    repeat split; reflexivity.
  - exists (Sample.media_event "QUJD"), (Obj [("payload", Str "QUJD")]).
    repeat split; reflexivity. }
split; [exact Hmedia |]. split; [reflexivity |].
apply (media_appends_in_arrival_order Sample.parse Sample.stringify _ _ _ Hmedia).
reflexivity.
Defined.

(** C2 as stated fails: the unpadded delta [QQ] reaches the telephony
    side as [QQ==]. *)
Lemma unpadded_delta_not_relayed_verbatim :
  audio_delta_with Sample.parse Demo.delta_QQ "QQ" /\
  readyState (connection Demo.active) = OPEN /\
  streamSid Demo.active = Str "SD123" /\
  sent (connection (exec (Demo.on_ai Demo.delta_QQ) Demo.active))
  = [Sample.stringify (Obj [ ("event", Str "media");
                             ("streamSid", Str "SD123");
                             ("media", Obj [ ("payload", Str "QQ==") ]) ])] /\
  sent (connection (exec (Demo.on_ai Demo.delta_QQ) Demo.active))
  <> [Sample.stringify (Obj [ ("event", Str "media");
                              ("streamSid", Str "SD123");
                              ("media", Obj [ ("payload", Str "QQ") ]) ])].
Proof.
split.
{ exists (Sample.delta_event "QQ"). repeat split; reflexivity. }
split; [reflexivity |]. split; [reflexivity |].
split; [vm_compute; reflexivity | vm_compute; discriminate].
Qed.

Lemma audio_delta_relayed_reencoded_witness :
  audio_delta_with Sample.parse Demo.delta_QUJD "QUJD" /\
  Base64.canonical "QUJD" = true /\
  exec (Demo.on_ai Demo.delta_QUJD) Demo.active
  = telephony_sent
      [Sample.stringify (Obj [ ("event", Str "media");
                               ("streamSid", Str "SD123");
                               ("media", Obj [ ("payload", Str "QUJD") ]) ])]
      Demo.active.
Proof.
assert (Hdelta : audio_delta_with Sample.parse Demo.delta_QUJD "QUJD").
{ exists (Sample.delta_event "QUJD"). repeat split; reflexivity. }
split; [exact Hdelta |]. split; [reflexivity |].
apply (audio_delta_relayed_reencoded Sample.parse Sample.stringify
         Sample.Buffer_from_object Demo.delta_QUJD "QUJD" Demo.active).
- exact Hdelta.
- discriminate.
- reflexivity.
- reflexivity.
Defined.

Lemma media_dropped_while_not_ready_witness :
  media_tagged Sample.parse Demo.media_AAAA /\
  readyState (openAiWs new_session) <> OPEN /\
  exec (Demo.on_telephony Demo.media_AAAA) new_session = new_session /\
  Demo.run [AiOpen; TelMessage Demo.media_AAAA]
           (exec (Demo.on_telephony Demo.media_AAAA) new_session)
  = Demo.run [AiOpen; TelMessage Demo.media_AAAA] new_session.
Proof.
assert (Htag : media_tagged Sample.parse Demo.media_AAAA).
{ exists (Sample.media_event "AAAA"). split; reflexivity. }
assert (Hnot : readyState (openAiWs new_session) <> OPEN) by discriminate.
split; [exact Htag |]. split; [exact Hnot |].
destruct (media_dropped_while_not_ready Sample.parse Sample.stringify
            Sample.Buffer_from_object Demo.media_AAAA new_session Htag Hnot)
  as [Hsame Hlater].
split; [exact Hsame | exact (Hlater _)].
Defined.

(** C4 as stated fails: the AI socket closes and the telephony socket
    stays open, with no [close()] called on it. *)
Lemma ai_close_leaves_telephony_open :
  readyState (connection Demo.active) = OPEN /\
  readyState (openAiWs Demo.active) = OPEN /\
  readyState (openAiWs (Demo.deliver AiClose Demo.active)) = CLOSED /\
  readyState (connection (Demo.deliver AiClose Demo.active)) = OPEN /\
  closeCalls (connection (Demo.deliver AiClose Demo.active)) = 0.
Proof. repeat split. Qed.

Lemma teardown_runs_one_way_witness :
  readyState (openAiWs Demo.active) = OPEN /\
  readyState (connection Demo.active) <> CLOSED /\
  readyState (openAiWs (Demo.deliver TelClose Demo.active)) = CLOSING /\
  closeCalls (openAiWs (Demo.deliver TelClose Demo.active)) = 1 /\
  readyState (connection (Demo.deliver TelClose Demo.active)) = CLOSED.
Proof.
assert (Hai : readyState (openAiWs Demo.active) = OPEN) by reflexivity.
assert (Htel : readyState (connection Demo.active) <> CLOSED) by discriminate.
split; [exact Hai |]. split; [exact Htel |].
exact (proj1 (teardown_runs_one_way Sample.parse Sample.stringify
                Sample.Buffer_from_object Demo.active) Hai Htel).
Defined.

(** C5 as stated fails: a second [start] message replaces the stream
    identifier the first one assigned. *)
Lemma second_start_overwrites_streamSid :
  streamSid (Demo.run [TelMessage Demo.start_SD123] new_session) = Str "SD123" /\
  streamSid (Demo.run [TelMessage Demo.start_SD123; TelMessage Demo.start_SD456] new_session)
  = Str "SD456" /\
  streamSid (Demo.run [TelMessage Demo.start_SD123; TelMessage Demo.start_SD456] new_session)
  <> streamSid (Demo.run [TelMessage Demo.start_SD123] new_session).
Proof.
split; [reflexivity |]. split; [reflexivity |]. vm_compute. discriminate.
Qed.

Lemma streamSid_last_write_wins_witness :
  start_event_with Sample.parse Demo.start_SD456 (Str "SD456") /\
  readyState (connection Demo.active) <> CLOSED /\
  streamSid (Demo.deliver (TelMessage Demo.start_SD456) Demo.active) = Str "SD456" /\
  streamSid (Demo.deliver (AiMessage Demo.delta_QUJD) Demo.active) = streamSid Demo.active.
Proof.
assert (Hstart : start_event_with Sample.parse Demo.start_SD456 (Str "SD456")).
{ exists (Sample.start_event "SD456"), (Obj [("streamSid", Str "SD456")]).
  repeat split; reflexivity. }
assert (Htel : readyState (connection Demo.active) <> CLOSED) by discriminate.
destruct (streamSid_last_write_wins Sample.parse Sample.stringify
            Sample.Buffer_from_object) as (_ & Hkept & Hassign).
split; [exact Hstart |]. split; [exact Htel |]. split.
- exact (Hassign _ _ _ Hstart Htel).
- apply Hkept. intros message Heq. discriminate Heq.
Defined.

(** C6 as stated fails: the telephony socket closes while the AI socket
    is still connecting; the AI socket opens afterwards and the session
    update goes out on it. *)
Lemma update_sent_after_telephony_close :
  readyState (connection (Demo.deliver TelClose new_session)) = CLOSED /\
  closeCalls (openAiWs (Demo.deliver TelClose new_session)) = 0 /\
  sent (openAiWs (Demo.deliver TelClose new_session)) = [] /\
  sent (openAiWs (Demo.run [AiOpen; Timeout] (Demo.deliver TelClose new_session)))
  = [Sample.stringify sessionUpdate] /\
  sent (openAiWs (Demo.run [AiOpen; Timeout] (Demo.deliver TelClose new_session)))
  <> sent (openAiWs (Demo.deliver TelClose new_session)).
Proof.
repeat split. vm_compute. discriminate.
Qed.

Lemma telephony_close_ends_session_witness :
  readyState (openAiWs Demo.active) <> CONNECTING /\
  readyState (connection Demo.active) <> CLOSED /\
  closeCalls (openAiWs (Demo.deliver TelClose Demo.active)) = 1 /\
  sent (openAiWs (Demo.run [AiMessage Demo.delta_QUJD; Timeout; AiClose]
                           (Demo.deliver TelClose Demo.active)))
  = sent (openAiWs (Demo.deliver TelClose Demo.active)) /\
  sent (connection (Demo.run [AiMessage Demo.delta_QUJD; Timeout; AiClose]
                             (Demo.deliver TelClose Demo.active)))
  = sent (connection (Demo.deliver TelClose Demo.active)).
Proof.
assert (Hai : readyState (openAiWs Demo.active) <> CONNECTING) by discriminate.
assert (Htel : readyState (connection Demo.active) <> CLOSED) by discriminate.
destruct (telephony_close_ends_session Sample.parse Sample.stringify
            Sample.Buffer_from_object Demo.active
            [AiMessage Demo.delta_QUJD; Timeout; AiClose] Hai Htel)
  as (Hcalls & _ & _ & _ & Hsent_ai & Hsent_tel).
split; [exact Hai |]. split; [exact Htel |]. split; [exact Hcalls |].
split; [exact Hsent_ai | exact Hsent_tel].
Defined.

Lemma decode_failure_discards_one_message_witness :
  Sample.parse Demo.not_json = None /\
  exec (Demo.on_telephony Demo.not_json) Demo.active
  = logged (ErrorLevel, [ LStr "Error al analizar el mensaje:"; LErr SyntaxError;
                          LStr "Mensaje:"; LStr Demo.not_json ]) Demo.active /\
  same_but_console
    (Demo.run [TelMessage Demo.media_AAAA] (exec (Demo.on_ai Demo.not_json) Demo.active))
    (Demo.run [TelMessage Demo.media_AAAA] Demo.active).
Proof.
assert (Hparse : Sample.parse Demo.not_json = None) by reflexivity.
destruct (decode_failure_discards_one_message Sample.parse Sample.stringify
            Sample.Buffer_from_object Demo.not_json Demo.active)
  as (Htel & Hai & Hthrows).
destruct (Hthrows Hparse) as [Htel_throws Hai_throws].
split; [exact Hparse |]. split.
- exact (proj1 (Htel _ Htel_throws)).
- exact (proj2 (Hai _ Hai_throws) _).
Defined.

(** C8 as stated fails: the caller hangs up within the settling delay,
    after the AI socket has opened; the timer still fires, and no session
    update goes out. *)
Lemma session_update_lost_after_hangup :
  readyState (openAiWs (Demo.run [AiOpen] new_session)) = OPEN /\
  pendingTimeouts (Demo.run [AiOpen; TelClose] new_session) = 1 /\
  pendingTimeouts (Demo.run [AiOpen; TelClose; Timeout] new_session) = 0 /\
  sent (openAiWs (Demo.run [AiOpen; TelClose; Timeout] new_session)) = [] /\
  forall later,
    sent (openAiWs (Demo.run later (Demo.run [AiOpen; TelClose; Timeout] new_session))) = [].
Proof.
split; [reflexivity |]. split; [reflexivity |]. split; [reflexivity |].
split; [reflexivity |].
intros later.
apply (torn_down_run Sample.parse Sample.stringify Sample.Buffer_from_object later).
split; [reflexivity | now left].
Qed.

Lemma session_update_after_open_witness :
  readyState (openAiWs new_session) = CONNECTING /\
  pendingTimeouts Demo.opened <> 0 /\
  sent (openAiWs (Demo.deliver AiOpen new_session)) = [] /\
  sent (openAiWs (Demo.deliver Timeout Demo.opened)) = [Sample.stringify sessionUpdate] /\
  pendingTimeouts (Demo.deliver Timeout Demo.opened) = 0.
Proof.
assert (Hconnecting : readyState (openAiWs new_session) = CONNECTING) by reflexivity.
assert (Htimer : pendingTimeouts Demo.opened <> 0) by discriminate.
split; [exact Hconnecting |]. split; [exact Htimer |].
destruct (session_update_after_open Sample.parse Sample.stringify
            Sample.Buffer_from_object new_session) as (Hon_open & _).
destruct (session_update_after_open Sample.parse Sample.stringify
            Sample.Buffer_from_object Demo.opened) as (_ & Hon_timer & _).
destruct (Hon_open Hconnecting) as (Hnothing & _).
destruct (Hon_timer Htimer) as (Htimers & Hsent).
split; [exact Hnothing |]. split; [exact Hsent | exact Htimers].
Defined.

(** C9 as stated fails: the caller hangs up before any [start] message,
    the AI socket opens all the same, and an audio delta arriving then is
    not relayed: the closed telephony socket takes nothing. *)
Lemma delta_after_hangup_not_relayed :
  streamSid (Demo.run [TelClose; AiOpen] new_session) = Null /\
  readyState (openAiWs (Demo.run [TelClose; AiOpen] new_session)) = OPEN /\
  audio_delta_with Sample.parse Demo.delta_QUJD "QUJD" /\
  sent (connection (exec (Demo.on_ai Demo.delta_QUJD)
                         (Demo.run [TelClose; AiOpen] new_session))) = [] /\
  Demo.run [AiMessage Demo.delta_QUJD] (Demo.run [TelClose; AiOpen] new_session)
  = Demo.run [TelClose; AiOpen] new_session.
Proof.
split; [reflexivity |]. split; [reflexivity |]. split.
{ exists (Sample.delta_event "QUJD"). repeat split; reflexivity. }
split; reflexivity.
Qed.

Lemma audio_delta_before_start_witness :
  audio_delta_with Sample.parse Demo.delta_QUJD "QUJD" /\
  readyState (connection (Demo.run [AiOpen] new_session)) = OPEN /\
  streamSid (Demo.run [AiOpen] new_session) = Null /\
  sent (connection (exec (Demo.on_ai Demo.delta_QUJD) (Demo.run [AiOpen] new_session)))
  = [Sample.stringify (Obj [ ("event", Str "media");
                             ("streamSid", Null);
                             ("media", Obj [ ("payload", Str "QUJD") ]) ])].
Proof.
assert (Hdelta : audio_delta_with Sample.parse Demo.delta_QUJD "QUJD").
{ exists (Sample.delta_event "QUJD"). repeat split; reflexivity. }
assert (Hbefore : Forall (fun ev => forall message, ev = TelMessage message ->
                                    ~ start_tagged Sample.parse message) [AiOpen]).
{ constructor; [| constructor]. intros message Heq. discriminate Heq. }
assert (Hne : "QUJD" <> "") by discriminate.
assert (Hopen : readyState (connection (Demo.run [AiOpen] new_session)) = OPEN)
  by reflexivity.
split; [exact Hdelta |]. split; [exact Hopen |].
exact (audio_delta_before_start Sample.parse Sample.stringify Sample.Buffer_from_object
         [AiOpen] Demo.delta_QUJD "QUJD" Hbefore Hdelta Hne Hopen).
Defined.

Lemma telephony_close_leaves_connecting_ai_witness :
  readyState (openAiWs new_session) <> OPEN /\
  readyState (connection new_session) <> CLOSED /\
  openAiWs (Demo.deliver TelClose new_session) = openAiWs new_session /\
  readyState (openAiWs (Demo.deliver AiOpen (Demo.deliver TelClose new_session))) = OPEN.
Proof.
assert (Hai : readyState (openAiWs new_session) <> OPEN) by discriminate.
assert (Htel : readyState (connection new_session) <> CLOSED) by discriminate.
destruct (telephony_close_leaves_connecting_ai Sample.parse Sample.stringify
            Sample.Buffer_from_object new_session Hai Htel) as (Hsame & Hopens).
split; [exact Hai |]. split; [exact Htel |]. split; [exact Hsame |].
exact (proj1 (Hopens eq_refl)).
Defined.

(** * The relayed payload is normalised base64

    [Buffer.from(response.delta, 'base64').toString('base64')] decodes
    leniently and encodes strictly. *)

(** A digit is the character of a value below 64: the decoder reads it
    back as that value, and it is not the pad. *)
Definition digit_reads_back (v : N) : bool :=
  match Base64.std_value (Base64.digit v) with
  | Some v' => (v =? v')%N && negb (Ascii.eqb (Base64.digit v) Base64.pad)
  | None => false
  end.

(** Whatever the decoder reads from a character is below 64. *)
Definition value_in_range (c : ascii) : bool :=
  match Base64.unbase64 c with
  | Some v => (v <? 64)%N
  | None => true
  end.

Lemma digit_reads_back_all (v : N) : (v < 64)%N -> digit_reads_back v = true.
Proof.
intros Hv.
assert (Hin : In v (map N.of_nat (seq 0 64))).
{ rewrite <- (N2Nat.id v). apply in_map. apply in_seq. lia. }
assert (Hall : forallb digit_reads_back (map N.of_nat (seq 0 64)) = true)
  by (vm_compute; reflexivity).
rewrite forallb_forall in Hall. now apply Hall.
Qed.

Lemma digit_facts (v : N) :
  (v < 64)%N ->
  Base64.std_value (Base64.digit v) = Some v /\
  Base64.is_std (Base64.digit v) = true /\
  Ascii.eqb (Base64.digit v) Base64.pad = false.
Proof.
intros Hv. pose proof (digit_reads_back_all v Hv) as H.
unfold digit_reads_back in H. unfold Base64.is_std.
destruct (Base64.std_value (Base64.digit v)) as [v' |]; [| discriminate].
apply andb_prop in H as [Heq Hpad].
apply N.eqb_eq in Heq. apply negb_true_iff in Hpad. subst v'. auto.
Qed.

Lemma value_in_range_all (c : ascii) : value_in_range c = true.
Proof. destruct c as [[] [] [] [] [] [] [] []]; vm_compute; reflexivity. Qed.

Lemma sextets_in_range (cs : list ascii) :
  Forall (fun v => (v < 64)%N) (Base64.sextets cs).
Proof.
induction cs as [| c cs IH]; simpl; [constructor |].
destruct (Ascii.eqb c Base64.pad); [constructor |].
pose proof (value_in_range_all c) as Hc. unfold value_in_range in Hc.
destruct (Base64.unbase64 c) as [v |]; [| exact IH].
constructor; [now apply N.ltb_lt | exact IH].
Qed.

(** The three bytes of four sextets. *)
Lemma bytes_in_range (a b c d : N) :
  (a < 64 -> b < 64 -> c < 64 -> d < 64 ->
   a * 4 + b / 16 < 256 /\ (b mod 16) * 16 + c / 4 < 256 /\
   (c mod 4) * 64 + d < 256)%N.
Proof.
intros Ha Hb Hc Hd.
destruct (sextet_split b 16 4) as (bh & bl & -> & Hbl & Hbh & -> & ->); [lia | lia |].
destruct (sextet_split c 4 16) as (ch & cl & -> & Hcl & Hch & -> & ->); [lia | lia |].
lia.
Qed.

Lemma bytes_in_range_upto (n : nat) (vs : list N) :
  length vs <= n ->
  Forall (fun v => (v < 64)%N) vs ->
  Forall (fun b => (b < 256)%N) (Base64.bytes_of_sextets vs).
Proof.
revert vs. induction n as [| n IH]; intros vs Hlen Hvs.
{ destruct vs; [constructor | simpl in Hlen; lia]. }
destruct vs as [| a [| b [| c [| d rest]]]]; simpl.
- constructor.
- constructor.
- inversion Hvs as [| ? ? Ha Hvs1]; subst. inversion Hvs1 as [| ? ? Hb _]; subst.
  destruct (bytes_in_range a b 0 0) as (B1 & _); try assumption; try lia.
  constructor; [exact B1 | constructor].
- inversion Hvs as [| ? ? Ha Hvs1]; subst. inversion Hvs1 as [| ? ? Hb Hvs2]; subst.
  inversion Hvs2 as [| ? ? Hc _]; subst.
  destruct (bytes_in_range a b c 0) as (B1 & B2 & _); try assumption; try lia.
  constructor; [exact B1 |]. constructor; [exact B2 | constructor].
- inversion Hvs as [| ? ? Ha Hvs1]; subst. inversion Hvs1 as [| ? ? Hb Hvs2]; subst.
  inversion Hvs2 as [| ? ? Hc Hvs3]; subst. inversion Hvs3 as [| ? ? Hd Hrest]; subst.
  destruct (bytes_in_range a b c d) as (B1 & B2 & B3); try assumption.
  constructor; [exact B1 |]. constructor; [exact B2 |]. constructor; [exact B3 |].
  apply IH; [simpl in Hlen; lia | exact Hrest].
Qed.

(** The four digits of three bytes. *)
Lemma digits_in_range (x y z : N) :
  (x < 256 -> y < 256 -> z < 256 ->
   x / 4 < 64 /\ (x mod 4) * 16 + y / 16 < 64 /\
   (y mod 16) * 4 + z / 64 < 64 /\ z mod 64 < 64 /\
   (x mod 4) * 16 < 64 /\ (y mod 16) * 4 < 64)%N.
Proof.
intros Hx Hy Hz.
destruct (sextet_split x 4 64) as (xh & xl & -> & Hxl & Hxh & -> & ->); [lia | lia |].
destruct (sextet_split y 16 16) as (yh & yl & -> & Hyl & Hyh & -> & ->); [lia | lia |].
destruct (sextet_split z 64 4) as (zh & zl & -> & Hzl & Hzh & -> & ->); [lia | lia |].
lia.
Qed.

Lemma low_bits_clear_digit (v m k : N) :
  (v < 64)%N -> (v = k * m)%N -> (m <> 0)%N ->
  Base64.low_bits_clear (Base64.digit v) m = true.
Proof.
intros Hv Hmul Hm. unfold Base64.low_bits_clear.
destruct (digit_facts v Hv) as (-> & _ & _).
apply N.eqb_eq. subst v. now apply N.Div0.mod_mul.
Qed.

Lemma encode_chars_canonical_upto (n : nat) (bs : list N) :
  length bs <= n ->
  Forall (fun b => (b < 256)%N) bs ->
  Base64.canonical_chars (Base64.encode_chars bs) = true.
Proof.
revert bs. induction n as [| n IH]; intros bs Hlen Hbs.
{ destruct bs; [reflexivity | simpl in Hlen; lia]. }
destruct bs as [| x [| y [| z rest]]].
- reflexivity.
- (* one byte: two digits and two pads *)
  inversion Hbs as [| ? ? Hx _]; subst.
  destruct (digits_in_range x 0 0) as (D1 & _ & _ & _ & D2 & _); try lia.
  destruct (digit_facts _ D1) as (_ & S1 & _).
  destruct (digit_facts _ D2) as (_ & S2 & _).
  simpl. unfold Base64.canonical_last. rewrite S1, S2. simpl.
  apply (low_bits_clear_digit _ 16 (x mod 4)); [exact D2 | reflexivity | lia].
- (* two bytes: three digits and one pad *)
  inversion Hbs as [| ? ? Hx Hbs1]; subst. inversion Hbs1 as [| ? ? Hy _]; subst.
  destruct (digits_in_range x y 0) as (D1 & D2 & _ & _ & _ & D3); try lia.
  destruct (digit_facts _ D1) as (_ & S1 & _).
  destruct (digit_facts _ D2) as (_ & S2 & _).
  destruct (digit_facts _ D3) as (_ & _ & P3).
  simpl. unfold Base64.canonical_last. rewrite S1, S2, P3. simpl.
  apply (low_bits_clear_digit _ 4 (y mod 16)); [exact D3 | reflexivity | lia].
- (* three bytes: four digits, then the rest *)
  inversion Hbs as [| ? ? Hx Hbs1]; subst. inversion Hbs1 as [| ? ? Hy Hbs2]; subst.
  inversion Hbs2 as [| ? ? Hz Hrest]; subst.
  destruct (digits_in_range x y z) as (D1 & D2 & D3 & D4 & _ & _); try assumption.
  destruct (digit_facts _ D1) as (_ & S1 & _).
  destruct (digit_facts _ D2) as (_ & S2 & _).
  destruct (digit_facts _ D3) as (_ & S3 & _).
  destruct (digit_facts _ D4) as (_ & S4 & P4).
  assert (IHrest : Base64.canonical_chars (Base64.encode_chars rest) = true)
    by (apply IH; [simpl in Hlen; lia | exact Hrest]).
  cbn [Base64.encode_chars Base64.canonical_chars].
  destruct rest as [| r1 [| r2 [| r3 rest']]];
    cbn [Base64.encode_chars] in IHrest |- *.
  + unfold Base64.canonical_last. now rewrite S1, S2, S3, S4, P4.
  + now rewrite S1, S2, S3, S4, IHrest.
  + now rewrite S1, S2, S3, S4, IHrest.
  + now rewrite S1, S2, S3, S4, IHrest.
Qed.

(** The reader takes the low byte of each code unit: U+0141 counts as
    the letter A. *)
Lemma wide_character_read_by_low_byte :
  Utf16.of_string "QŁ" = [81%N; 321%N] /\
  Base64.encode (Base64.decode "QŁ") = "QA==".
Proof. split; reflexivity. Qed.

(** Decoding any text and encoding the bytes gives canonical base64. *)
Lemma reencoded_is_canonical (text : string) :
  Base64.canonical (Base64.encode (Base64.decode text)) = true.
Proof.
unfold Base64.canonical, Base64.encode, Base64.decode.
rewrite list_ascii_of_string_of_list_ascii.
apply (encode_chars_canonical_upto _ _ (le_n _)).
apply (bytes_in_range_upto _ _ (le_n _)).
apply sextets_in_range.
Qed.

(** * More of the relay

    The remaining branches of the two message listeners, and what holds of
    the session over whole runs of events. *)
Section Relay.

Variable JSON_parse : string -> option value.
Variable JSON_stringify : value -> string.
Variable Buffer_from_object : value -> result (list N).

Local Abbreviation on_telephony := (connection_on_message JSON_parse JSON_stringify).
Local Abbreviation on_ai := (openAiWs_on_message JSON_parse JSON_stringify Buffer_from_object).
Local Abbreviation handle := (deliver JSON_parse JSON_stringify Buffer_from_object).
Local Abbreviation handle_all := (run JSON_parse JSON_stringify Buffer_from_object).

(** An AI text with [type === 'response.audio.delta'], whatever else it
    holds. *)
Definition delta_tagged (data : string) : Prop :=
  exists response,
    JSON_parse data = Some response /\
    get_prop response "type" = Ok (Str "response.audio.delta").

(** The AI listener run over a sequence of texts, in order. *)
Definition relay_all (datas : list string) (s : session) : session :=
  fold_left (fun s' data => exec (on_ai data) s') datas s.

(** The line the telephony listener's [catch] writes. *)
Definition telephony_error_line (e : exn) (message : string) : log_level * list log_arg :=
  (ErrorLevel, [ LStr "Error al analizar el mensaje:"; LErr e;
                 LStr "Mensaje:"; LStr message ]).

(** The line the AI listener's [catch] writes. *)
Definition ai_error_line (e : exn) (data : string) : log_level * list log_arg :=
  (ErrorLevel, [ LStr "Error al procesar el mensaje de OpenAI:"; LErr e;
                 LStr "Mensaje en bruto:"; LStr data ]).

(** A text the telephony socket may carry: a media frame whose payload
    is the base64 text of some bytes. *)
Definition is_media_frame (text : string) : Prop :=
  exists sid bytes, text = JSON_stringify (audioDelta sid (Base64.encode bytes)).

(** A text the AI socket may carry: the session update or an audio
    append. *)
Definition is_ai_text (text : string) : Prop :=
  text = JSON_stringify sessionUpdate \/
  exists payload, text = JSON_stringify (audioAppend payload).

Ltac unfold_handlers :=
  unfold exec, connection_on_message, connection_on_message_try,
    openAiWs_on_message, openAiWs_on_message_try, connection_on_close,
    openAiWs_on_open, openAiWs_on_close, openAiWs_on_error, sendSessionUpdate,
    try_catch, bind, parse, lift, ret, when, openAiWs_readyState, openAiWs_send,
    openAiWs_close, connection_send, read_streamSid, assign_streamSid,
    console_log, console_error, setTimeout_sendSessionUpdate, ws_send, ws_close.

Ltac innermost x :=
  lazymatch x with
  | context [match _ with _ => _ end] => fail
  | _ => idtac
  end.

Ltac case_split :=
  repeat match goal with
         | |- context [match ?x with _ => _ end] =>
             innermost x; destruct x eqn:?; simpl
         end.

(** Two tests of one value against different literals cannot both hold. *)
Ltac tags_clash :=
  repeat match goal with
         | H : strict_eq_str ?v _ = true |- _ =>
             apply strict_eq_str_true in H;
             first [ subst v | injection H as H; try subst | idtac ]
         end;
  simpl in *; first [ discriminate | congruence ].

Lemma tagged_by_event (message : string) (data event : value) (tag : string) :
  JSON_parse message = Some data ->
  get_prop data "event" = Ok event ->
  strict_eq_str event tag = true ->
  exists data', JSON_parse message = Some data' /\ get_prop data' "event" = Ok (Str tag).
Proof.
intros Hparse Hevent Htag. exists data. split; [exact Hparse |].
now rewrite Hevent, (strict_eq_str_true _ _ Htag).
Qed.

Lemma on_telephony_frame (message : string) (s : session) :
  connection (exec (on_telephony message) s) = connection s /\
  pendingTimeouts (exec (on_telephony message) s) = pendingTimeouts s /\
  readyState (openAiWs (exec (on_telephony message) s)) = readyState (openAiWs s) /\
  closeCalls (openAiWs (exec (on_telephony message) s)) = closeCalls (openAiWs s) /\
  (~ media_tagged JSON_parse message ->
   openAiWs (exec (on_telephony message) s) = openAiWs s) /\
  (~ start_tagged JSON_parse message ->
   streamSid (exec (on_telephony message) s) = streamSid s).
Proof.
destruct s as [sid [ai aiout aicalls] tel timers out].
unfold_handlers; simpl. case_split; repeat split; auto; intros Hnot; exfalso; apply Hnot;
  eapply tagged_by_event; eauto.
Qed.

(** The telephony listener sends nothing back on the telephony socket,
    arms no timer and closes nothing.  Unless the text is a [media]
    message it leaves the AI socket alone as well, and unless it is a
    [start] message it leaves the stream identifier alone: other events
    and texts that fail to decode cause no traffic and change nothing
    but the console. *)
Theorem only_media_reaches_ai (message : string) (s : session) :
  connection (exec (on_telephony message) s) = connection s /\
  pendingTimeouts (exec (on_telephony message) s) = pendingTimeouts s /\
  readyState (openAiWs (exec (on_telephony message) s)) = readyState (openAiWs s) /\
  closeCalls (openAiWs (exec (on_telephony message) s)) = closeCalls (openAiWs s) /\
  (~ media_tagged JSON_parse message ->
   openAiWs (exec (on_telephony message) s) = openAiWs s) /\
  (~ start_tagged JSON_parse message ->
   streamSid (exec (on_telephony message) s) = streamSid s).
Proof. exact (on_telephony_frame message s). Qed.

Lemma delta_tagged_by_type (data : string) (response ty : value) :
  JSON_parse data = Some response ->
  get_prop response "type" = Ok ty ->
  strict_eq_str ty "response.audio.delta" = true ->
  delta_tagged data.
Proof.
intros Hparse Htype Htag. exists response. split; [exact Hparse |].
now rewrite Htype, (strict_eq_str_true _ _ Htag).
Qed.

Lemma on_ai_frame (data : string) (s : session) :
  openAiWs (exec (on_ai data) s) = openAiWs s /\
  streamSid (exec (on_ai data) s) = streamSid s /\
  pendingTimeouts (exec (on_ai data) s) = pendingTimeouts s /\
  readyState (connection (exec (on_ai data) s)) = readyState (connection s) /\
  closeCalls (connection (exec (on_ai data) s)) = closeCalls (connection s) /\
  (~ delta_tagged data -> connection (exec (on_ai data) s) = connection s).
Proof.
destruct s as [sid ai [tel telout telcalls] timers out].
unfold_handlers; simpl. case_split; repeat split; auto; intros Hnot; exfalso; apply Hnot;
  eapply delta_tagged_by_type; eauto.
Qed.

(** The AI listener never writes to the AI socket, never touches the
    stream identifier and arms no timer; and unless the text is a
    [response.audio.delta] event it leaves the telephony socket alone as
    well: diagnostic events, [session.updated] and texts that fail to
    decode cause no traffic at all. *)
Theorem only_audio_delta_reaches_telephony (data : string) (s : session) :
  openAiWs (exec (on_ai data) s) = openAiWs s /\
  streamSid (exec (on_ai data) s) = streamSid s /\
  pendingTimeouts (exec (on_ai data) s) = pendingTimeouts s /\
  readyState (connection (exec (on_ai data) s)) = readyState (connection s) /\
  closeCalls (connection (exec (on_ai data) s)) = closeCalls (connection s) /\
  (~ delta_tagged data -> connection (exec (on_ai data) s) = connection s).
Proof. exact (on_ai_frame data s). Qed.

(** What the telephony listener does to the AI socket depends on the AI
    socket alone. *)
Lemma on_telephony_reads_ai_socket (message : string) (s s' : session) :
  openAiWs s = openAiWs s' ->
  openAiWs (exec (on_telephony message) s) = openAiWs (exec (on_telephony message) s').
Proof.
destruct s as [sid ai tel timers out], s' as [sid' ai' tel' timers' out']; simpl.
intros <-. destruct ai as [ai aiout aicalls].
unfold_handlers; simpl. case_split; auto.
Qed.

(** What the AI listener does to the telephony socket depends on the
    telephony socket and the stream identifier alone. *)
Lemma on_ai_reads_telephony_socket (data : string) (s s' : session) :
  streamSid s = streamSid s' ->
  connection s = connection s' ->
  connection (exec (on_ai data) s) = connection (exec (on_ai data) s').
Proof.
destruct s as [sid ai tel timers out], s' as [sid' ai' tel' timers' out']; simpl.
intros <- <-. destruct tel as [tel telout telcalls].
unfold_handlers; simpl. case_split; auto.
Qed.

Lemma telephony_sent_nil (s : session) : telephony_sent [] s = s.
Proof.
unfold telephony_sent. rewrite app_nil_r, websocket_eta. apply session_eta.
Qed.

Lemma telephony_sent_app (xs ys : list string) (s : session) :
  telephony_sent ys (telephony_sent xs s) = telephony_sent (xs ++ ys) s.
Proof. unfold telephony_sent; simpl. now rewrite app_assoc. Qed.

(** Audio deltas are relayed in arrival order: a sequence of
    [response.audio.delta] events with non-empty string deltas, handled
    while the telephony socket is open, puts one media frame per event
    on it, in the order of the events, each tagged with the stream
    identifier and carrying its delta decoded and encoded again; nothing
    else in the session changes. *)
Theorem audio_deltas_in_arrival_order
    (datas deltas : list string) (s : session) :
  Forall2 (audio_delta_with JSON_parse) datas deltas ->
  Forall (fun delta => delta <> "") deltas ->
  readyState (connection s) = OPEN ->
  relay_all datas s
  = telephony_sent
      (map (fun delta =>
              JSON_stringify
                (Obj [ ("event", Str "media");
                       ("streamSid", streamSid s);
                       ("media",
                         Obj [ ("payload", Str (Base64.encode (Base64.decode delta))) ]) ]))
           deltas) s.
Proof.
intros Hall. revert s.
induction Hall as [| data delta datas deltas Hone _ IH]; intros s Hne Hopen.
- simpl. now rewrite telephony_sent_nil.
- inversion Hne as [| ? ? Hne1 Hne']; subst. simpl.
  rewrite (audio_delta_forwarded JSON_parse JSON_stringify Buffer_from_object
             _ _ _ Hone Hne1 Hopen).
  rewrite IH by (simpl; assumption).
  rewrite telephony_sent_app. reflexivity.
Qed.

(** A [response.audio.delta] event without usable audio sends nothing.
    With a falsy [delta] (absent, [null], [false], [0] or the empty
    string) the listener does nothing at all; with a number or [true],
    [Buffer.from] raises a [TypeError], which the [catch] writes to the
    error console. *)
Theorem unusable_delta_sends_nothing
    (data : string) (response delta : value) (s : session) :
  JSON_parse data = Some response ->
  get_prop response "type" = Ok (Str "response.audio.delta") ->
  get_prop response "delta" = Ok delta ->
  (truthy delta = false -> exec (on_ai data) s = s) /\
  (truthy delta = true ->
   (exists q, delta = Num q) \/ delta = Bool true ->
   exec (on_ai data) s = logged (ai_error_line TypeError data) s).
Proof.
intros Hparse Htype Hdelta. split.
- intros Hfalsy. unfold_handlers. rewrite Hparse, Htype. simpl.
  rewrite Hdelta. simpl. now rewrite Hfalsy.
- intros Htruthy Hkind. unfold_handlers. rewrite Hparse, Htype. simpl.
  rewrite Hdelta. simpl. rewrite Htruthy.
  destruct Hkind as [[q ->] | ->]; reflexivity.
Qed.

(** A [start] message without a [start] object is discarded: reading
    [data.start.streamSid] raises a [TypeError], the [catch] writes it to
    the error console and the stream identifier stays as it was.  A
    [start] object without a [streamSid] is accepted, and sets the stream
    identifier to [undefined]. *)
Theorem start_without_stream_identifier
    (message : string) (data start : value) (s : session) :
  JSON_parse message = Some data ->
  get_prop data "event" = Ok (Str "start") ->
  get_prop data "start" = Ok start ->
  (start = Undefined \/ start = Null ->
   exec (on_telephony message) s = logged (telephony_error_line TypeError message) s) /\
  (get_prop start "streamSid" = Ok Undefined ->
   streamSid (exec (on_telephony message) s) = Undefined /\
   openAiWs (exec (on_telephony message) s) = openAiWs s /\
   connection (exec (on_telephony message) s) = connection s).
Proof.
intros Hparse Hevent Hstart. split.
- intros Hmissing. unfold_handlers. rewrite Hparse, Hevent. simpl. rewrite Hstart.
  destruct Hmissing as [-> | ->]; reflexivity.
- intros Hsid. unfold_handlers. rewrite Hparse, Hevent. simpl. rewrite Hstart, Hsid.
  simpl. auto.
Qed.

(** A [media] message without a [media] object: while the AI socket is
    open, reading [data.media.payload] raises a [TypeError], which the
    [catch] writes to the error console, and nothing is sent; while the
    AI socket is not open the payload is never read, and the message is
    dropped without a trace. *)
Theorem media_without_media_object
    (message : string) (data media : value) (s : session) :
  JSON_parse message = Some data ->
  get_prop data "event" = Ok (Str "media") ->
  get_prop data "media" = Ok media ->
  media = Undefined \/ media = Null ->
  (readyState (openAiWs s) = OPEN ->
   exec (on_telephony message) s = logged (telephony_error_line TypeError message) s) /\
  (readyState (openAiWs s) <> OPEN -> exec (on_telephony message) s = s).
Proof.
intros Hparse Hevent Hmedia Hmissing. split.
- intros Hopen. unfold_handlers. rewrite Hparse, Hevent. simpl. rewrite Hopen, Hmedia.
  destruct Hmissing as [-> | ->]; reflexivity.
- intros Hnot. unfold_handlers. rewrite Hparse, Hevent. simpl.
  destruct (readyState (openAiWs s)); simpl; try reflexivity. now elim Hnot.
Qed.

(** ** Over whole runs *)

(** What one event adds to the two wires and to the console. *)
Lemma deliver_adds (ev : event) (s : session) :
  exists to_ai to_telephony lines,
    sent (openAiWs (handle ev s)) = (sent (openAiWs s) ++ to_ai)%list /\
    sent (connection (handle ev s)) = (sent (connection s) ++ to_telephony)%list /\
    console (handle ev s) = (console s ++ lines)%list /\
    length to_ai + length to_telephony <= 1 /\
    length lines <= 1 /\
    Forall is_ai_text to_ai /\
    Forall is_media_frame to_telephony.
Proof.
destruct s as [sid [ai aiout aicalls] [tel telout telcalls] timers out].
unfold deliver, enabled, is_closed, fire; simpl.
destruct ev; unfold_handlers; simpl; case_split; try tags_clash;
  first
    [ exists [], [], []; rewrite ?app_nil_r; simpl;
      repeat split; auto; fail
    | eexists [], [], [_]; rewrite ?app_nil_r; simpl;
      repeat split; auto; fail
    | eexists [_], [], []; rewrite ?app_nil_r; simpl;
      split; [reflexivity |]; repeat split; auto;
      constructor; [right; eexists; reflexivity | constructor]
    | eexists [_], [], [_]; rewrite ?app_nil_r; simpl;
      split; [reflexivity |]; repeat split; auto;
      constructor; [left; reflexivity | constructor]
    | eexists [], [_], []; rewrite ?app_nil_r; simpl;
      split; [reflexivity |]; split; [reflexivity |]; repeat split; auto;
      constructor; [eexists; eexists; reflexivity | constructor] ].
Qed.

(** Every event puts at most one text on the wires, both sockets taken
    together, and writes at most one line to the console; what was sent
    or written before stays in place, in order. *)
Theorem one_text_and_one_line_per_event (ev : event) (s : session) :
  exists to_ai to_telephony lines,
    sent (openAiWs (handle ev s)) = (sent (openAiWs s) ++ to_ai)%list /\
    sent (connection (handle ev s)) = (sent (connection s) ++ to_telephony)%list /\
    console (handle ev s) = (console s ++ lines)%list /\
    length to_ai + length to_telephony <= 1 /\
    length lines <= 1.
Proof.
destruct (deliver_adds ev s) as (a & t & l & Ha & Ht & Hl & Hone & Hline & _).
exists a, t, l. auto.
Qed.

Lemma wire_texts_kept (ev : event) (s : session) :
  Forall is_ai_text (sent (openAiWs s)) ->
  Forall is_media_frame (sent (connection s)) ->
  Forall is_ai_text (sent (openAiWs (handle ev s))) /\
  Forall is_media_frame (sent (connection (handle ev s))).
Proof.
intros Hai Htel.
destruct (deliver_adds ev s) as (a & t & l & Ha & Ht & _ & _ & _ & Hnew_ai & Hnew_tel).
rewrite Ha, Ht. split; apply Forall_app; auto.
Qed.

(** Whatever events a session goes through, the only texts it ever puts
    on the telephony socket are media frames whose payload is the base64
    text of some bytes, and the only texts it ever puts on the AI socket
    are the session update and audio appends. *)
Theorem only_relay_texts_on_the_wires (evs : list event) :
  Forall is_media_frame (sent (connection (handle_all evs new_session))) /\
  Forall is_ai_text (sent (openAiWs (handle_all evs new_session))).
Proof.
assert (Hgen : forall s,
  Forall is_ai_text (sent (openAiWs s)) ->
  Forall is_media_frame (sent (connection s)) ->
  Forall is_media_frame (sent (connection (handle_all evs s))) /\
  Forall is_ai_text (sent (openAiWs (handle_all evs s)))).
{ induction evs as [| ev evs IH]; intros s Hai Htel; simpl.
  - auto.
  - destruct (wire_texts_kept ev s Hai Htel) as [Hai' Htel']. now apply IH. }
apply Hgen; constructor.
Qed.

(** What one event does to the [close()] counts. *)
Lemma deliver_close_calls (ev : event) (s : session) :
  closeCalls (connection (handle ev s)) = closeCalls (connection s) /\
  (closeCalls (openAiWs (handle ev s)) = closeCalls (openAiWs s) \/
   readyState (openAiWs s) = OPEN /\
   readyState (openAiWs (handle ev s)) = CLOSING /\
   closeCalls (openAiWs (handle ev s)) = S (closeCalls (openAiWs s))).
Proof.
destruct s as [sid [ai aiout aicalls] [tel telout telcalls] timers out].
unfold deliver, enabled, is_closed, fire; simpl.
destruct ev; unfold_handlers; simpl; case_split; simpl in *;
  try discriminate; auto.
Qed.

Lemma ai_close_calls_bounded (evs : list event) (s : session) :
  closeCalls (openAiWs s) = 0 \/
  closeCalls (openAiWs s) = 1 /\ readyState (openAiWs s) <> OPEN /\
  readyState (openAiWs s) <> CONNECTING ->
  closeCalls (openAiWs (handle_all evs s)) <= 1.
Proof.
revert s. induction evs as [| ev evs IH]; intros s Hinv; simpl.
- destruct Hinv as [-> | (-> & _)]; lia.
- apply IH.
  destruct (deliver_close_calls ev s) as (_ & [Hsame | (Hopen & Hclosing & Hone)]).
  + rewrite Hsame.
    destruct Hinv as [Hzero | (Hone & Hnot_open & Hnot_connecting)]; [now left | right].
    split; [assumption |].
    destruct (deliver_skeleton JSON_parse JSON_stringify Buffer_from_object ev s)
      as (Hstate & _ & _).
    rewrite Hstate. unfold ai_state_after.
    destruct ev, (readyState (openAiWs s)); simpl; split; congruence.
  + destruct Hinv as [Hzero | (_ & Hnot_open & _)]; [| contradiction].
    right. rewrite Hone, Hzero, Hclosing. repeat split; discriminate.
Qed.

(** The session never calls [close()] on the telephony socket, whatever
    happens; and over a whole session, from its creation on, it calls
    [close()] on the AI socket at most once. *)
Theorem close_calls_over_a_session (evs : list event) :
  (forall s, closeCalls (connection (handle_all evs s)) = closeCalls (connection s)) /\
  closeCalls (openAiWs (handle_all evs new_session)) <= 1.
Proof.
split.
- induction evs as [| ev evs IH]; intros s; simpl; [reflexivity |].
  rewrite IH. apply (deliver_close_calls ev s).
- apply ai_close_calls_bounded. now left.
Qed.

Definition is_ai_open (ev : event) : bool :=
  match ev with AiOpen => true | _ => false end.

Lemma closed_ai_receives_nothing (ev : event) (s : session) :
  readyState (openAiWs s) <> OPEN ->
  is_ai_open ev = false ->
  sent (openAiWs (handle ev s)) = sent (openAiWs s) /\
  readyState (openAiWs (handle ev s)) <> OPEN.
Proof.
destruct s as [sid [ai aiout aicalls] [tel telout telcalls] timers out]; simpl.
intros Hnot Hev.
unfold deliver, enabled, is_closed, fire; simpl.
destruct ev; try discriminate Hev; unfold_handlers; simpl; case_split;
  split; auto; try discriminate; congruence.
Qed.

(** Nothing reaches the AI socket while it is not open: in any run of
    events that starts with the AI socket not open and contains no AI
    ['open'] event -- before the handshake has completed, or after the
    socket has begun to close -- what the AI socket has sent stays as it
    was.  In particular telephony audio arriving before the AI socket
    opens is lost, not queued. *)
Theorem nothing_reaches_ai_unless_open (evs : list event) (s : session) :
  readyState (openAiWs s) <> OPEN ->
  forallb (fun ev => negb (is_ai_open ev)) evs = true ->
  sent (openAiWs (handle_all evs s)) = sent (openAiWs s).
Proof.
revert s. induction evs as [| ev evs IH]; intros s Hnot Hevs; simpl.
- reflexivity.
- simpl in Hevs. apply andb_prop in Hevs as [Hev Hevs].
  apply negb_true_iff in Hev.
  destruct (closed_ai_receives_nothing ev s Hnot Hev) as [Hsent Hnot'].
  now rewrite (IH _ Hnot' Hevs).
Qed.

(** The two directions do not disturb each other: handling a telephony
    message that is not a [start] message and an AI message gives the
    same stream identifier, sockets and timers in either order (only the
    order of the console lines can differ). *)
Theorem directions_commute (message data : string) (s : session) :
  ~ start_tagged JSON_parse message ->
  same_but_console (exec (on_ai data) (exec (on_telephony message) s))
                   (exec (on_telephony message) (exec (on_ai data) s)).
Proof.
intros Hnot.
destruct (on_telephony_frame message s) as (Htel & Htimers & _ & _ & _ & Hsid).
destruct (on_telephony_frame message (exec (on_ai data) s))
  as (Htel' & Htimers' & _ & _ & _ & Hsid').
destruct (on_ai_frame data s) as (Hai & Hsid_ai & Htimers_ai & _).
destruct (on_ai_frame data (exec (on_telephony message) s))
  as (Hai' & Hsid_ai' & Htimers_ai' & _).
specialize (Hsid Hnot). specialize (Hsid' Hnot).
unfold same_but_console. repeat split.
- now rewrite Hsid_ai', Hsid, Hsid', Hsid_ai.
- rewrite Hai'. now apply on_telephony_reads_ai_socket.
- rewrite Htel'. now apply on_ai_reads_telephony_socket.
- now rewrite Htimers_ai', Htimers, Htimers', Htimers_ai.
Qed.

(** Whatever the delta looks like, the payload that goes out is
    canonical base64: an audio delta with a non-empty string puts one
    frame on the open telephony socket whose payload is canonical and
    would come out unchanged if it were decoded and encoded once more. *)
Theorem relayed_payload_is_normalised (data delta : string) (s : session) :
  audio_delta_with JSON_parse data delta ->
  delta <> "" ->
  readyState (connection s) = OPEN ->
  exists payload,
    sent (connection (exec (on_ai data) s))
    = (sent (connection s)
       ++ [JSON_stringify
             (Obj [ ("event", Str "media");
                    ("streamSid", streamSid s);
                    ("media", Obj [ ("payload", Str payload) ]) ])])%list /\
    Base64.canonical payload = true /\
    Base64.encode (Base64.decode payload) = payload.
Proof.
intros Hdelta Hne Hopen.
exists (Base64.encode (Base64.decode delta)).
rewrite (audio_delta_forwarded JSON_parse JSON_stringify Buffer_from_object
           _ _ _ Hdelta Hne Hopen).
split; [reflexivity |].
split; [apply reencoded_is_canonical |].
apply canonical_round_trip, reencoded_is_canonical.
Qed.

(** Once a [start] message has assigned a stream identifier, every frame
    relayed afterwards carries it, whatever happens in between, until
    another [start] message arrives. *)
Theorem stream_identifier_tags_later_frames
    (message : string) (sid : value) (between : list event)
    (data delta : string) (s : session) :
  start_event_with JSON_parse message sid ->
  readyState (connection s) <> CLOSED ->
  Forall (fun ev => forall other, ev = TelMessage other -> ~ start_tagged JSON_parse other)
         between ->
  audio_delta_with JSON_parse data delta ->
  delta <> "" ->
  readyState (connection (handle_all between (handle (TelMessage message) s))) = OPEN ->
  sent (connection (exec (on_ai data)
                         (handle_all between (handle (TelMessage message) s))))
  = (sent (connection (handle_all between (handle (TelMessage message) s)))
     ++ [JSON_stringify
           (Obj [ ("event", Str "media");
                  ("streamSid", sid);
                  ("media",
                    Obj [ ("payload", Str (Base64.encode (Base64.decode delta))) ]) ])])%list.
Proof.
intros Hstart Htel Hbetween Hdelta Hne Hopen.
rewrite (audio_delta_forwarded JSON_parse JSON_stringify Buffer_from_object
           _ _ _ Hdelta Hne Hopen).
rewrite (streamSid_kept_run JSON_parse JSON_stringify Buffer_from_object
           between _ Hbetween).
assert (Hsid : streamSid (handle (TelMessage message) s) = sid).
{ unfold deliver, enabled, is_closed.
  destruct (readyState (connection s)); simpl;
    try (now rewrite (start_assigns JSON_parse JSON_stringify _ _ _ Hstart)).
  now elim Htel. }
rewrite Hsid. reflexivity.
Qed.

(** The console is write-only: two sessions that differ only in what
    has been written to the console go through any run of events alike,
    ending with the same stream identifier, sockets and timers. *)
Theorem console_never_read (evs : list event) (a b : session) :
  same_but_console a b ->
  same_but_console (handle_all evs a) (handle_all evs b).
Proof.
exact (run_same_but_console JSON_parse JSON_stringify Buffer_from_object evs a b).
Qed.

(** The settling timer is not cancelled when the AI socket goes down:
    if it fires after the AI socket has begun to close,
    [sendSessionUpdate] still writes its console line, but the session
    update goes nowhere. *)
Theorem late_session_update_is_dropped (s : session) :
  readyState (openAiWs s) = CLOSING \/ readyState (openAiWs s) = CLOSED ->
  pendingTimeouts s <> 0 ->
  handle Timeout s
  = logged (LogLevel, [ LStr "Enviando actualización de sesión:";
                        LStr (JSON_stringify sessionUpdate) ])
           (timer_fired s).
Proof.
destruct s as [sid [ai aiout aicalls] tel timers out]; simpl.
intros Hai Htimers. destruct timers; [now elim Htimers |].
destruct Hai as [-> | ->]; reflexivity.
Qed.

End Relay.

(** * More worked examples

    The texts of [Sample] and a few malformed ones, read back the same
    way. *)
Module Edge.

Definition session_updated_event : value := Obj [ ("type", Str "session.updated") ].

Definition bare_delta_event : value := Obj [ ("type", Str "response.audio.delta") ].

Definition numeric_delta_event : value :=
  Obj [ ("type", Str "response.audio.delta"); ("delta", Num (5 # 1)%Q) ].

Definition bare_start_event : value := Obj [ ("event", Str "start") ].

Definition empty_start_event : value :=
  Obj [ ("event", Str "start"); ("start", Obj []) ].

Definition bare_media_event : value := Obj [ ("event", Str "media") ].

Definition texts : list value :=
  (Sample.texts ++
   [ bare_delta_event; numeric_delta_event; bare_start_event; empty_start_event;
     bare_media_event ])%list.

Definition parse (text : string) : option value :=
  find (fun v => String.eqb (Sample.stringify v) text) texts.

Definition on_telephony : string -> M unit :=
  connection_on_message parse Sample.stringify.

Definition on_ai : string -> M unit :=
  openAiWs_on_message parse Sample.stringify Sample.Buffer_from_object.

Definition session_updated : string := Sample.stringify session_updated_event.
Definition bare_delta : string := Sample.stringify bare_delta_event.
Definition numeric_delta : string := Sample.stringify numeric_delta_event.
Definition bare_start : string := Sample.stringify bare_start_event.
Definition empty_start : string := Sample.stringify empty_start_event.
Definition bare_media : string := Sample.stringify bare_media_event.

(** The telephony socket closed right after the AI socket opened, the
    settling timer still pending. *)
Definition hung_up_early : session := Demo.run [AiOpen; TelClose] new_session.

End Edge.

Lemma only_media_reaches_ai_witness :
  ~ media_tagged Sample.parse Demo.start_SD456 /\
  openAiWs (exec (Demo.on_telephony Demo.start_SD456) Demo.active) = openAiWs Demo.active.
Proof.
assert (Hnot : ~ media_tagged Sample.parse Demo.start_SD456).
{ intros (data & Hparse & Hevent). vm_compute in Hparse.
  injection Hparse as <-. discriminate Hevent. }
split; [exact Hnot |].
destruct (only_media_reaches_ai Sample.parse Sample.stringify
            Demo.start_SD456 Demo.active) as (_ & _ & _ & _ & Hai & _).
exact (Hai Hnot).
Defined.

Lemma only_audio_delta_reaches_telephony_witness :
  ~ delta_tagged Sample.parse Edge.session_updated /\
  connection (exec (Demo.on_ai Edge.session_updated) Demo.active) = connection Demo.active.
Proof.
assert (Hnot : ~ delta_tagged Sample.parse Edge.session_updated).
{ intros (response & Hparse & Htype). vm_compute in Hparse.
  injection Hparse as <-. discriminate Htype. }
split; [exact Hnot |].
destruct (only_audio_delta_reaches_telephony Sample.parse Sample.stringify
            Sample.Buffer_from_object Edge.session_updated Demo.active)
  as (_ & _ & _ & _ & _ & Htel).
exact (Htel Hnot).
Defined.

Lemma audio_deltas_in_arrival_order_witness :
  Forall2 (audio_delta_with Sample.parse) [Demo.delta_QQ; Demo.delta_QUJD] ["QQ"; "QUJD"] /\
  readyState (connection Demo.active) = OPEN /\
  relay_all Sample.parse Sample.stringify Sample.Buffer_from_object
            [Demo.delta_QQ; Demo.delta_QUJD] Demo.active
  = telephony_sent
      [ Sample.stringify (Obj [ ("event", Str "media");
                                ("streamSid", Str "SD123");
                                ("media", Obj [ ("payload", Str "QQ==") ]) ]);
        Sample.stringify (Obj [ ("event", Str "media");
                                ("streamSid", Str "SD123");
                                ("media", Obj [ ("payload", Str "QUJD") ]) ]) ]
      Demo.active.
Proof.
assert (Hdeltas : Forall2 (audio_delta_with Sample.parse)
                          [Demo.delta_QQ; Demo.delta_QUJD] ["QQ"; "QUJD"]).
{ constructor; [| constructor; [| constructor]].
  - exists (Sample.delta_event "QQ"). repeat split; reflexivity.
  - exists (Sample.delta_event "QUJD"). repeat split; reflexivity. }
assert (Hne : Forall (fun delta => delta <> "") ["QQ"; "QUJD"]).
{ constructor; [discriminate |]. constructor; [discriminate | constructor]. }
split; [exact Hdeltas |]. split; [reflexivity |].
apply (audio_deltas_in_arrival_order Sample.parse Sample.stringify
         Sample.Buffer_from_object _ _ Demo.active Hdeltas Hne).
reflexivity.
Defined.

Lemma unusable_delta_sends_nothing_witness :
  Edge.parse Edge.bare_delta = Some Edge.bare_delta_event /\
  Edge.parse Edge.numeric_delta = Some Edge.numeric_delta_event /\
  exec (Edge.on_ai Edge.bare_delta) Demo.active = Demo.active /\
  exec (Edge.on_ai Edge.numeric_delta) Demo.active
  = logged (ai_error_line TypeError Edge.numeric_delta) Demo.active.
Proof.
assert (Hbare : Edge.parse Edge.bare_delta = Some Edge.bare_delta_event) by reflexivity.
assert (Hnumeric : Edge.parse Edge.numeric_delta = Some Edge.numeric_delta_event)
  by reflexivity.
split; [exact Hbare |]. split; [exact Hnumeric |]. split.
- apply (proj1 (unusable_delta_sends_nothing Edge.parse Sample.stringify
                  Sample.Buffer_from_object Edge.bare_delta Edge.bare_delta_event
                  Undefined Demo.active Hbare eq_refl eq_refl)).
  reflexivity.
- apply (proj2 (unusable_delta_sends_nothing Edge.parse Sample.stringify
                  Sample.Buffer_from_object Edge.numeric_delta Edge.numeric_delta_event
                  (Num (5 # 1)%Q) Demo.active Hnumeric eq_refl eq_refl)).
  + reflexivity.
  + left. now exists (5 # 1)%Q.
Defined.

Lemma start_without_stream_identifier_witness :
  Edge.parse Edge.bare_start = Some Edge.bare_start_event /\
  Edge.parse Edge.empty_start = Some Edge.empty_start_event /\
  exec (Edge.on_telephony Edge.bare_start) Demo.active
  = logged (telephony_error_line TypeError Edge.bare_start) Demo.active /\
  streamSid (exec (Edge.on_telephony Edge.empty_start) Demo.active) = Undefined.
Proof.
assert (Hbare : Edge.parse Edge.bare_start = Some Edge.bare_start_event) by reflexivity.
assert (Hempty : Edge.parse Edge.empty_start = Some Edge.empty_start_event) by reflexivity.
split; [exact Hbare |]. split; [exact Hempty |]. split.
- apply (proj1 (start_without_stream_identifier Edge.parse Sample.stringify
                  Edge.bare_start Edge.bare_start_event Undefined Demo.active
                  Hbare eq_refl eq_refl)).
  now left.
- apply (proj2 (start_without_stream_identifier Edge.parse Sample.stringify
                  Edge.empty_start Edge.empty_start_event (Obj []) Demo.active
                  Hempty eq_refl eq_refl)).
  reflexivity.
Defined.

Lemma media_without_media_object_witness :
  Edge.parse Edge.bare_media = Some Edge.bare_media_event /\
  readyState (openAiWs Demo.active) = OPEN /\
  readyState (openAiWs new_session) <> OPEN /\
  exec (Edge.on_telephony Edge.bare_media) Demo.active
  = logged (telephony_error_line TypeError Edge.bare_media) Demo.active /\
  exec (Edge.on_telephony Edge.bare_media) new_session = new_session.
Proof.
assert (Hparse : Edge.parse Edge.bare_media = Some Edge.bare_media_event) by reflexivity.
assert (Hopen : readyState (openAiWs Demo.active) = OPEN) by reflexivity.
assert (Hnot : readyState (openAiWs new_session) <> OPEN) by discriminate.
split; [exact Hparse |]. split; [exact Hopen |]. split; [exact Hnot |]. split.
- exact (proj1 (media_without_media_object Edge.parse Sample.stringify
                  Edge.bare_media Edge.bare_media_event Undefined Demo.active
                  Hparse eq_refl eq_refl (or_introl eq_refl)) Hopen).
- exact (proj2 (media_without_media_object Edge.parse Sample.stringify
                  Edge.bare_media Edge.bare_media_event Undefined new_session
                  Hparse eq_refl eq_refl (or_introl eq_refl)) Hnot).
Defined.

Lemma nothing_reaches_ai_unless_open_witness :
  readyState (openAiWs new_session) <> OPEN /\
  sent (openAiWs (Demo.run [TelMessage Demo.start_SD123; TelMessage Demo.media_AAAA;
                            TelMessage Demo.media_QUJD] new_session)) = [].
Proof.
assert (Hnot : readyState (openAiWs new_session) <> OPEN) by discriminate.
split; [exact Hnot |].
apply (nothing_reaches_ai_unless_open Sample.parse Sample.stringify
         Sample.Buffer_from_object
         [TelMessage Demo.start_SD123; TelMessage Demo.media_AAAA;
          TelMessage Demo.media_QUJD] new_session Hnot).
reflexivity.
Defined.

Lemma directions_commute_witness :
  ~ start_tagged Sample.parse Demo.media_AAAA /\
  same_but_console
    (exec (Demo.on_ai Demo.delta_QUJD) (exec (Demo.on_telephony Demo.media_AAAA) Demo.active))
    (exec (Demo.on_telephony Demo.media_AAAA) (exec (Demo.on_ai Demo.delta_QUJD) Demo.active)).
Proof.
assert (Hnot : ~ start_tagged Sample.parse Demo.media_AAAA).
{ intros (data & Hparse & Hevent). vm_compute in Hparse.
  injection Hparse as <-. discriminate Hevent. }
split; [exact Hnot |].
exact (directions_commute Sample.parse Sample.stringify Sample.Buffer_from_object
         Demo.media_AAAA Demo.delta_QUJD Demo.active Hnot).
Defined.

Lemma relayed_payload_is_normalised_witness :
  audio_delta_with Sample.parse Demo.delta_QQ "QQ" /\
  readyState (connection Demo.active) = OPEN /\
  exists payload,
    sent (connection (exec (Demo.on_ai Demo.delta_QQ) Demo.active))
    = (sent (connection Demo.active)
       ++ [Sample.stringify
             (Obj [ ("event", Str "media");
                    ("streamSid", streamSid Demo.active);
                    ("media", Obj [ ("payload", Str payload) ]) ])])%list /\
    Base64.canonical payload = true /\
    Base64.encode (Base64.decode payload) = payload.
Proof.
assert (Hdelta : audio_delta_with Sample.parse Demo.delta_QQ "QQ").
{ exists (Sample.delta_event "QQ"). repeat split; reflexivity. }
assert (Hne : "QQ" <> "") by discriminate.
assert (Hopen : readyState (connection Demo.active) = OPEN) by reflexivity.
split; [exact Hdelta |]. split; [exact Hopen |].
exact (relayed_payload_is_normalised Sample.parse Sample.stringify
         Sample.Buffer_from_object Demo.delta_QQ "QQ" Demo.active Hdelta Hne Hopen).
Defined.

Lemma stream_identifier_tags_later_frames_witness :
  start_event_with Sample.parse Demo.start_SD456 (Str "SD456") /\
  sent (connection
          (exec (Demo.on_ai Demo.delta_QUJD)
                (Demo.run [TelMessage Demo.media_AAAA]
                          (Demo.deliver (TelMessage Demo.start_SD456) Demo.active))))
  = [Sample.stringify (Obj [ ("event", Str "media");
                             ("streamSid", Str "SD456");
                             ("media", Obj [ ("payload", Str "QUJD") ]) ])].
Proof.
assert (Hstart : start_event_with Sample.parse Demo.start_SD456 (Str "SD456")).
{ exists (Sample.start_event "SD456"), (Obj [("streamSid", Str "SD456")]).
  repeat split; reflexivity. }
assert (Htel : readyState (connection Demo.active) <> CLOSED) by discriminate.
assert (Hbetween : Forall (fun ev => forall other, ev = TelMessage other ->
                                     ~ start_tagged Sample.parse other)
                          [TelMessage Demo.media_AAAA]).
{ constructor; [| constructor]. intros other Heq. injection Heq as <-.
  intros (data & Hparse & Hevent). vm_compute in Hparse.
  injection Hparse as <-. discriminate Hevent. }
assert (Hdelta : audio_delta_with Sample.parse Demo.delta_QUJD "QUJD").
{ exists (Sample.delta_event "QUJD"). repeat split; reflexivity. }
assert (Hne : "QUJD" <> "") by discriminate.
split; [exact Hstart |].
apply (stream_identifier_tags_later_frames Sample.parse Sample.stringify
         Sample.Buffer_from_object Demo.start_SD456 (Str "SD456")
         [TelMessage Demo.media_AAAA] Demo.delta_QUJD "QUJD" Demo.active
         Hstart Htel Hbetween Hdelta Hne).
reflexivity.
Defined.

Lemma console_never_read_witness :
  same_but_console (logged (LogLevel, [LStr "noise"]) Demo.active) Demo.active /\
  same_but_console
    (Demo.run [TelMessage Demo.media_AAAA; AiMessage Demo.delta_QUJD; TelClose]
              (logged (LogLevel, [LStr "noise"]) Demo.active))
    (Demo.run [TelMessage Demo.media_AAAA; AiMessage Demo.delta_QUJD; TelClose]
              Demo.active).
Proof.
assert (Hsame : same_but_console (logged (LogLevel, [LStr "noise"]) Demo.active)
                                 Demo.active).
{ repeat split. }
split; [exact Hsame |].
exact (console_never_read Sample.parse Sample.stringify Sample.Buffer_from_object
         _ _ _ Hsame).
Defined.

Lemma late_session_update_is_dropped_witness :
  readyState (openAiWs Edge.hung_up_early) = CLOSING /\
  pendingTimeouts Edge.hung_up_early <> 0 /\
  sent (openAiWs (Demo.deliver Timeout Edge.hung_up_early)) = [] /\
  Demo.deliver Timeout Edge.hung_up_early
  = logged (LogLevel, [ LStr "Enviando actualización de sesión:";
                        LStr (Sample.stringify sessionUpdate) ])
           (timer_fired Edge.hung_up_early).
Proof.
assert (Hclosing : readyState (openAiWs Edge.hung_up_early) = CLOSING) by reflexivity.
assert (Htimer : pendingTimeouts Edge.hung_up_early <> 0) by discriminate.
pose proof (late_session_update_is_dropped Sample.parse Sample.stringify
              Sample.Buffer_from_object Edge.hung_up_early
              (or_introl Hclosing) Htimer) as Hdropped.
split; [exact Hclosing |]. split; [exact Htimer |]. split; [| exact Hdropped].
unfold Demo.deliver. rewrite Hdropped. reflexivity.
Defined.
